(** * Eventures: the data layer of [Map_display.cpp]

    A shallow embedding of the non-rendering logic of
    [src/Eventures/src/Map_display.cpp]: the aggregation of raw event
    records into map points ([createGraphics]), the search entry point
    ([searchHandler]), the marker cursor ([switchViews]), the click handler
    installed by [connectSignals] and the page probe ([checkPage]).

    Conventions.
    - A C++ [int] is a [Z].  Signed overflow is undefined behaviour and is
      modelled as such ([int_arith]); [static_cast<int>] of a container size
      wraps ([to_int]).
    - [std::vector::operator[]] performs no bounds check: an index outside
      the vector is undefined behaviour ([vector_at]).
    - [std::map] iterates in ascending key order: it is a [FMapList] over the
      lexicographic order on pairs of strings.
    - The loops over a vector or a map are folds over a list; their [int]
      loop variables, ids and counters are bounded by the number of records.
    - The member functions run in a small monad over the fields of
      [Map_display]; an outcome is a normal return, a C++ exception in
      flight, or undefined behaviour.
    - [get_events] (declared in [request.h]) and [std::stod] are not part of
      this file of the repository: they are parameters of the development. *)

From Stdlib Require Import ZArith QArith List String Ascii Bool Lia.
From Stdlib Require Import Permutation Sorted SetoidList.
From Stdlib Require Import OrderedTypeEx FMapList FMapFacts.
From Stdlib Require Import DecimalString.
Import ListNotations.
Local Open Scope string_scope.
Local Open Scope list_scope.
Local Open Scope Z_scope.

(** ** Machine integers *)

Definition INT_MIN : Z := - 2 ^ 31.
Definition INT_MAX : Z := 2 ^ 31 - 1.

Definition in_int (z : Z) : bool := (INT_MIN <=? z) && (z <=? INT_MAX).

(** [static_cast<int>(n)] for an unsigned [n]: reduction modulo [2^32] into
    the signed range. *)
Definition to_int (z : Z) : Z := (z + 2 ^ 31) mod 2 ^ 32 - 2 ^ 31.

(** [std::to_string(int)]. *)
Definition to_string (z : Z) : string := NilZero.string_of_int (Z.to_int z).

(** ** Containers of the source *)

(** [std::pair<std::string, std::string>] under [operator<]. *)
Module Key := PairOrderedType String_as_OT String_as_OT.

(** [std::map<std::pair<std::string, std::string>, int>]. *)
Module PointMap := FMapList.Make Key.
Module PointMapFacts := FMapFacts.Facts PointMap.
Module PointMapProps := FMapFacts.OrdProperties PointMap.

(** [std::map<std::string, std::string>]: one raw event record. *)
Module Fields := FMapList.Make String_as_OT.

Definition RawEventRecord : Type := Fields.t string.

(** [record[name]]: a missing field reads as the empty string. *)
Definition field (record : RawEventRecord) (name : string) : string :=
  match Fields.find name record with
  | Some v => v
  | None => EmptyString
  end.

(** [std::make_pair(record["lat"], record["lng"])]. *)
Definition location_of (record : RawEventRecord) : Key.t :=
  (field record "lat", field record "lng").

(** [points[k]]: a missing key reads as a value-initialised [int]. *)
Definition occurrences_at (points : PointMap.t Z) (k : Key.t) : Z :=
  match PointMap.find k points with
  | Some n => n
  | None => 0
  end.

(** [points[k] += 1]. *)
Definition bump (points : PointMap.t Z) (k : Key.t) : PointMap.t Z :=
  PointMap.add k (occurrences_at points k + 1) points.

(** Lines 79-83: the counting loop of [createGraphics]. *)
Definition count_points (eventarr : list RawEventRecord) : PointMap.t Z :=
  fold_left (fun points record => bump points (location_of record))
            eventarr (PointMap.empty Z).

(** ** Vocabulary of the statements on the counting loop *)

(** Equality of keys is equality of both strings. *)
Definition key_eq_dec (a b : Key.t) : {a = b} + {a <> b}.
Proof. decide equality; apply string_dec. Defined.

(** How many records of [eventarr] carry the coordinate strings [k]. *)
Definition records_at (eventarr : list RawEventRecord) (k : Key.t) : nat :=
  count_occ key_eq_dec (map location_of eventarr) k.

(** The entries of [points] as the second loop meets them. *)
Definition aggregate (eventarr : list RawEventRecord) : list (Key.t * Z) :=
  PointMap.elements (count_points eventarr).

(** The counters of a list of entries, added up. *)
Definition sum_occurrences (locations : list (Key.t * Z)) : Z :=
  fold_right (fun location acc => snd location + acc) 0 locations.

(** The counters of a map, added up through [PointMap.fold]. *)
Definition total (points : PointMap.t Z) : Z :=
  PointMap.fold (fun _ n acc => n + acc) points 0.

(** The order of [std::pair<std::string, std::string>]: the first strings
    decide, the second ones break a tie; [String_as_OT.lt] compares strings
    character by character on their codes, as [std::string] does. *)
Definition pair_lt (a b : string * string) : Prop :=
  String_as_OT.lt (fst a) (fst b) \/
  (fst a = fst b /\ String_as_OT.lt (snd a) (snd b)).

(** The arguments of one call [get_events(a1, ..., a8, flag)]: the eight
    strings in call order and the trailing [bool]. *)
Definition Request : Type := (list string * bool)%type.

(** The exceptions of [std::stod]. *)
Inductive exn : Type :=
| invalid_argument
| out_of_range.

Section MapDisplay.

(** [double], and [std::stod] on it. *)
Variable double : Type.
Variable stod : string -> double + exn.

(** The state behind [request.h] (active parameters, remote service), and
    [get_events]: [None] is the call without arguments. *)
Variable Net : Type.
Variable get_events : option Request -> Net -> list RawEventRecord * Net.

(** [Esri::ArcGISRuntime::Point(x, y, SpatialReference::wgs84())]. *)
Record Point : Type := mkPoint { x : double; y : double }.

Inductive Symbol : Type :=
| PictureMarkerSymbol
| SimpleMarkerSymbol
| TextSymbol (text : Z).

(** A [Graphic]; [id] is the dynamic property set by [setProperty("id", _)],
    absent on the graphics that never receive it. *)
Record Graphic : Type := mkGraphic {
  geometry : Point;
  symbol : Symbol;
  id : option Z
}.

Definition GraphicsOverlay : Type := list Graphic.

(** [graphic->property("id").toInt()]: an invalid [QVariant] converts to 0. *)
Definition property_id (g : Graphic) : Z :=
  match id g with
  | Some i => i
  | None => 0
  end.

(** What the controller does to its collaborators, in program order. *)
Inductive Event : Type :=
| Fetched (args : option Request)
| SetViewpointAnimated (center : Point)
| MapViewChanged.

(** The fields of [Map_display] and of the view it drives. *)
Record State : Type := mkState {
  results : Z;
  currIndex : Z;
  activePoints : list Point;
  graphicsOverlays : list GraphicsOverlay;
  net : Net;
  trace : list Event
}.

Definition set_results (v : Z) (s : State) : State :=
  mkState v (currIndex s) (activePoints s) (graphicsOverlays s) (net s) (trace s).
Definition set_currIndex (v : Z) (s : State) : State :=
  mkState (results s) v (activePoints s) (graphicsOverlays s) (net s) (trace s).
Definition set_activePoints (v : list Point) (s : State) : State :=
  mkState (results s) (currIndex s) v (graphicsOverlays s) (net s) (trace s).
Definition set_graphicsOverlays (v : list GraphicsOverlay) (s : State) : State :=
  mkState (results s) (currIndex s) (activePoints s) v (net s) (trace s).
Definition set_net (v : Net) (s : State) : State :=
  mkState (results s) (currIndex s) (activePoints s) (graphicsOverlays s) v (trace s).
Definition log (e : Event) (s : State) : State :=
  mkState (results s) (currIndex s) (activePoints s) (graphicsOverlays s) (net s)
          (trace s ++ [e]).

(** ** The monad of member functions *)

Inductive outcome (A : Type) : Type :=
| Done (a : A) (s : State)
| Throws (e : exn) (s : State)
| Undefined.
Arguments Done {A} a s.
Arguments Throws {A} e s.
Arguments Undefined {A}.

Definition M (A : Type) : Type := State -> outcome A.

Definition ret {A} (a : A) : M A := fun s => Done a s.

Definition bind {A B} (m : M A) (k : A -> M B) : M B :=
  fun s =>
    match m s with
    | Done a s' => k a s'
    | Throws e s' => Throws e s'
    | Undefined => Undefined
    end.

Notation "x <- m ;; k" := (bind m (fun x => k))
  (at level 61, m at next level, right associativity).
Notation "m ;;; k" := (bind m (fun _ => k))
  (at level 61, right associativity).

Definition read {A} (f : State -> A) : M A := fun s => Done (f s) s.
Definition update (f : State -> State) : M unit := fun s => Done tt (f s).
Definition throw {A} (e : exn) : M A := fun s => Throws e s.
Definition undefined {A} : M A := fun _ => Undefined.

(** The result of an [int] operation, undefined when it overflows. *)
Definition int_arith (z : Z) : M Z :=
  if in_int z then ret z else undefined.

(** [v[i]] on a [std::vector]: the index is converted to [size_t], so a
    negative one is out of range like one past the end. *)
Definition vector_at (v : list Point) (i : Z) : M Point :=
  if (0 <=? i) && (i <? Z.of_nat (length v)) then
    match nth_error v (Z.to_nat i) with
    | Some p => ret p
    | None => undefined
    end
  else undefined.

(** [std::stod(s)], throwing what it throws. *)
Definition call_stod (s : string) : M double :=
  match stod s with
  | inl d => ret d
  | inr e => throw e
  end.

(** A call of [get_events]. *)
Definition call_get_events (args : option Request) : M (list RawEventRecord) :=
  fun s =>
    let (eventarr, n) := get_events args (net s) in
    Done eventarr (log (Fetched args) (set_net n s)).

(** ** [Map_display::transition_coords] *)

Definition transition_coords (center : Point) : M unit :=
  update (log (SetViewpointAnimated center)).

(** ** [Map_display::createGraphics] *)

(** Lines 88-125: one round per entry of [points], in key order. *)
Fixpoint for_each_location (locations : list (Key.t * Z)) (index : Z)
    (overlay : GraphicsOverlay) : M GraphicsOverlay :=
  match locations with
  | [] => ret overlay
  | (location, occurrences) :: rest =>
      lat <- call_stod (fst location) ;;
      lng <- call_stod (snd location) ;;
      let point := mkPoint lng lat in
      let point_graphic := mkGraphic point PictureMarkerSymbol (Some index) in
      let overlay := overlay ++ [point_graphic] in
      let overlay :=
        if 1 <? occurrences then
          let textGraphic := mkGraphic point (TextSymbol occurrences) None in
          let circleGraphic := mkGraphic point SimpleMarkerSymbol None in
          overlay ++ [circleGraphic; textGraphic]
        else overlay in
      update (fun s => set_activePoints (activePoints s ++ [point]) s) ;;;
      for_each_location rest (index + 1) overlay
  end.

(** Lines 76-127: [createGraphics] once [get_events()] has answered. *)
Definition createGraphics_on (eventarr : list RawEventRecord)
    (overlay : GraphicsOverlay) : M GraphicsOverlay :=
  r <- read results ;;
  r' <- int_arith (r + to_int (Z.of_nat (length eventarr))) ;;
  update (set_results r') ;;;
  let points := count_points eventarr in
  if PointMap.is_empty points then ret overlay
  else
    update (set_activePoints []) ;;;
    for_each_location (PointMap.elements points) 0 overlay.

Definition createGraphics (overlay : GraphicsOverlay) : M GraphicsOverlay :=
  eventarr <- call_get_events None ;;
  createGraphics_on eventarr overlay.

(** ** [Map_display::searchHandler] *)

Definition searchHandler (text : string) (page : Z) : M unit :=
  offset <- int_arith (page * 20) ;;
  (if 0 <? page then update (set_results 0) else ret tt) ;;;
  _ <- call_get_events
         (Some ([text; EmptyString; EmptyString; EmptyString; EmptyString;
                 EmptyString; "20"; to_string offset], false)) ;;
  update (set_graphicsOverlays []) ;;;
  overlay <- createGraphics [] ;;
  update (fun s => set_graphicsOverlays (graphicsOverlays s ++ [overlay]) s) ;;;
  active <- read activePoints ;;
  first <- vector_at active 0 ;;
  transition_coords first ;;;
  update (log MapViewChanged).

(** ** [Map_display::switchViews] *)

Definition switchViews (next : bool) : M unit :=
  index <- read currIndex ;;
  index <- int_arith (index + (if next then 1 else -1)) ;;
  active <- read activePoints ;;
  len <- int_arith (to_int (Z.of_nat (length active)) - 1) ;;
  let index := if len <? index then 0 else if index <? 0 then len else index in
  point <- vector_at active index ;;
  transition_coords point ;;;
  update (set_currIndex index) ;;;
  update (log MapViewChanged).

(** ** The [identifyGraphicsOverlayCompleted] handler of [connectSignals]

    [None] is a null result; otherwise the graphics of the result. *)
Definition identifyCompleted (identifyResult : option (list Graphic)) : M unit :=
  match identifyResult with
  | Some (clickedGraphic :: _) =>
      active <- read activePoints ;;
      point <- vector_at active (property_id clickedGraphic) ;;
      transition_coords point
  | _ => ret tt
  end.

(** ** [Map_display::checkPage] *)

Definition checkPage (next : bool) : M Z :=
  r <- read results ;;
  let page := Z.quot r 20 - 1 in
  if next then
    if Z.rem r 20 =? 0 then
      _ <- call_get_events
             (Some ([EmptyString; "|"; EmptyString; EmptyString; EmptyString;
                     EmptyString; "1"; to_string (page + 1)], false)) ;;
      probe <- call_get_events None ;;
      if 1 <=? Z.of_nat (length probe) then ret (page + 1) else ret (-1)
    else ret (-1)
  else
    if 0 <? page then ret (page - 1) else ret (-1).

(** ** Vocabulary of the statements on the controller *)

(** The point of a key, when both of its strings convert. *)
Definition to_point (location : Key.t) : option Point :=
  match stod (fst location), stod (snd location) with
  | inl lat, inl lng => Some (mkPoint lng lat)
  | _, _ => None
  end.

(** A record whose [lat] and [lng] both convert. *)
Definition parsable (record : RawEventRecord) : bool :=
  match to_point (location_of record) with
  | Some _ => true
  | None => false
  end.

(** The conversions of the second loop up to the first one that throws:
    the points reached, each with its counter, and the exception if any. *)
Fixpoint convert (locations : list (Key.t * Z))
  : list (Point * Z) * option exn :=
  match locations with
  | [] => ([], None)
  | (location, occurrences) :: rest =>
      match stod (fst location) with
      | inr e => ([], Some e)
      | inl lat =>
          match stod (snd location) with
          | inr e => ([], Some e)
          | inl lng =>
              let (points, e) := convert rest in
              ((mkPoint lng lat, occurrences) :: points, e)
          end
      end
  end.

(** The graphics of a list of points with their counters: a marker with
    the next id, and a circle and a label where the counter exceeds 1. *)
Fixpoint graphics_of (index : Z) (points : list (Point * Z)) : list Graphic :=
  match points with
  | [] => []
  | (point, occurrences) :: rest =>
      mkGraphic point PictureMarkerSymbol (Some index)
      :: (if 1 <? occurrences then
            [mkGraphic point SimpleMarkerSymbol None;
             mkGraphic point (TextSymbol occurrences) None]
          else [])
      ++ graphics_of (index + 1) rest
  end.

(** The counters of a list of points, added up. *)
Definition sum_counts (points : list (Point * Z)) : Z :=
  fold_right (fun point acc => snd point + acc) 0 points.

(** The request of [searchHandler], and the records its pass aggregates:
    the answer to the [get_events()] of [createGraphics], which follows the
    call that carries the request. *)
Definition search_request (text : string) (page : Z) : option Request :=
  Some ([text; EmptyString; EmptyString; EmptyString; EmptyString;
         EmptyString; "20"; to_string (page * 20)], false).

Definition net_after_request (text : string) (page : Z) (s : State) : Net :=
  snd (get_events (search_request text page) (net s)).

Definition searched (text : string) (page : Z) (s : State)
  : list RawEventRecord :=
  fst (get_events None (net_after_request text page s)).

(** The state in which the pass of [searchHandler] starts: the counter reset
    by line 166, both calls of [get_events] logged, the overlays cleared. *)
Definition before_pass (text : string) (page : Z) (s : State) : State :=
  log (Fetched None)
    (set_net (snd (get_events None (net_after_request text page s)))
       (set_graphicsOverlays []
          (log (Fetched (search_request text page))
             (set_net (net_after_request text page s)
                (if 0 <? page then set_results 0 s else s))))).

(** The request of the probe of [checkPage] from a counter [r]. *)
Definition probe_request (r : Z) : option Request :=
  Some ([EmptyString; "|"; EmptyString; EmptyString; EmptyString;
         EmptyString; "1"; to_string (Z.quot r 20 - 1 + 1)], false).

(** [count] presses of the same button in a row. *)
Fixpoint presses (count : nat) (next : bool) : M unit :=
  match count with
  | O => ret tt
  | S count' => switchViews next ;;; presses count' next
  end.

(** The cursor after a run, when the run returns. *)
Definition index_after {A} (o : outcome A) : option Z :=
  match o with
  | Done _ s => Some (currIndex s)
  | _ => None
  end.

(** The ids of the graphics of an overlay that carry one, in overlay
    order. *)
Definition marker_ids (overlay : GraphicsOverlay) : list Z :=
  flat_map (fun g => match id g with Some i => [i] | None => [] end) overlay.

(** The numbers shown by the labels of an overlay, in overlay order. *)
Definition labels (overlay : GraphicsOverlay) : list Z :=
  flat_map (fun g => match symbol g with TextSymbol n => [n] | _ => [] end)
           overlay.

(** The records a list of labels stands for beyond the first of each. *)
Definition duplicates (counts : list Z) : Z :=
  fold_right (fun n acc => (n - 1) + acc) 0 counts.

End MapDisplay.

Arguments mkPoint {double} x y.
Arguments x {double} p.
Arguments y {double} p.
Arguments mkGraphic {double} geometry symbol id.
Arguments geometry {double} g.
Arguments symbol {double} g.
Arguments id {double} g.
Arguments property_id {double} g.
Arguments Fetched {double} args.
Arguments SetViewpointAnimated {double} center.
Arguments MapViewChanged {double}.
Arguments mkState {double Net} _ _ _ _ _ _.
Arguments results {double Net} s.
Arguments currIndex {double Net} s.
Arguments activePoints {double Net} s.
Arguments graphicsOverlays {double Net} s.
Arguments net {double Net} s.
Arguments trace {double Net} s.
Arguments set_results {double Net} v s.
Arguments set_currIndex {double Net} v s.
Arguments set_activePoints {double Net} v s.
Arguments set_graphicsOverlays {double Net} v s.
Arguments set_net {double Net} v s.
Arguments log {double Net} e s.
Arguments Done {double Net A} a s.
Arguments Throws {double Net A} e s.
Arguments Undefined {double Net A}.
Arguments bind {double Net A B} m k s.
Arguments ret {double Net A} a s.
Arguments int_arith {double Net} z s.
Arguments vector_at {double Net} v i s.
Arguments call_stod {double} stod {Net} s _.
Arguments call_get_events {double Net} get_events args s.
Arguments transition_coords {double Net} center s.
Arguments for_each_location {double} stod {Net} locations index overlay s.
Arguments createGraphics_on {double} stod {Net} eventarr overlay s.
Arguments createGraphics {double} stod {Net} get_events overlay s.
Arguments searchHandler {double} stod {Net} get_events text page s.
Arguments switchViews {double Net} next s.
Arguments identifyCompleted {double Net} identifyResult s.
Arguments checkPage {double Net} get_events next s.
Arguments to_point {double} stod location.
Arguments parsable {double} stod record.
Arguments convert {double} stod locations.
Arguments graphics_of {double} index points.
Arguments sum_counts {double} points.
Arguments net_after_request {double Net} get_events text page s.
Arguments searched {double Net} get_events text page s.
Arguments before_pass {double Net} get_events text page s.
Arguments presses {double Net} count next s.
Arguments index_after {double Net A} o.
Arguments marker_ids {double} overlay.
Arguments labels {double} overlay.

(** ** A sample environment

    A decimal reader in the place of [std::stod] and a scripted event source
    in the place of [get_events], to run the controller on concrete input. *)
Module Sample.

Definition is_space (c : ascii) : bool :=
  match N_of_ascii c with
  | 32%N | 9%N | 10%N | 11%N | 12%N | 13%N => true
  | _ => false
  end.

Definition digit_of (c : ascii) : option Z :=
  let n := Z.of_N (N_of_ascii c) in
  if (48 <=? n) && (n <=? 57) then Some (n - 48) else None.

Fixpoint skip_spaces (s : string) : string :=
  match s with
  | String c rest => if is_space c then skip_spaces rest else s
  | EmptyString => s
  end.

(** Reads the digits in front of [s] after [acc]: the value, how many
    digits were read, and what follows them. *)
Fixpoint read_digits (s : string) (acc : Z) (count : nat) : Z * nat * string :=
  match s with
  | String c rest =>
      match digit_of c with
      | Some d => read_digits rest (10 * acc + d) (S count)
      | None => (acc, count, s)
      end
  | EmptyString => (acc, count, s)
  end.

(** The conversion of [std::stod] on plain decimal numerals (blanks, a
    sign, digits with an optional fraction), with the exact value in the
    place of the [double]; [invalid_argument] when no digit is found. *)
Definition stod (s : string) : Q + exn :=
  let s := skip_spaces s in
  let (negative, s) :=
    match s with
    | String "-" rest => (true, rest)
    | String "+" rest => (false, rest)
    | _ => (false, s)
    end in
  let '(whole, n1, rest) := read_digits s 0 0 in
  let '(mantissa, n2, _) :=
    match rest with
    | String "." fraction => read_digits fraction whole 0
    | _ => (whole, 0%nat, rest)
    end in
  if (n1 + n2 =? 0)%nat then inr invalid_argument
  else inl (Qred (Qmake (if negative then - mantissa else mantissa)
                        (Z.to_pos (10 ^ Z.of_nat n2)))).

(** The answers the event source will give, one per call. *)
Definition Net : Type := list (list RawEventRecord).

Definition get_events (_ : option Request) (script : Net)
  : list RawEventRecord * Net :=
  match script with
  | answer :: rest => (answer, rest)
  | [] => ([], [])
  end.

Definition event (lat lng : string) : RawEventRecord :=
  Fields.add "lat" lat (Fields.add "lng" lng (Fields.empty string)).

(** A record of the source without coordinates. *)
Definition event_without_coordinates : RawEventRecord :=
  Fields.add "name" "Concert" (Fields.empty string).

Definition init (script : Net) : State Q Net :=
  mkState 0 0 [] [] script [].

(** Sample answers of the event source. *)
Definition three_events : list RawEventRecord :=
  [event "10.0" "20.0"; event "10.0" "20.0"; event "30.0" "40.0"].

Definition three_events_shuffled : list RawEventRecord :=
  [event "30.0" "40.0"; event "10.0" "20.0"; event "10.0" "20.0"].

Definition mixed_events : list RawEventRecord :=
  [event_without_coordinates; event "10.0" "20.0"].

(** A controller that shows two points of an earlier search, the cursor
    on the second one. *)
Definition loaded (script : Net) : State Q Net :=
  mkState 2 1 [mkPoint 174.77%Q (-41.28)%Q; mkPoint 172.63%Q (-43.53)%Q] []
          script [].

(** A controller whose cursor was left at 7 by a longer list. *)
Definition stale (script : Net) : State Q Net :=
  mkState 2 7 [mkPoint 174.77%Q (-41.28)%Q; mkPoint 172.63%Q (-43.53)%Q] []
          script [].

End Sample.

(** * Properties *)

(** ** The sample environment *)

Example sample_stod_decimal : Sample.stod "-41.35" = inl (Qmake (-827) 20).
Proof. reflexivity. Qed.
Example sample_stod_text : Sample.stod "n/a" = inr invalid_argument.
Proof. reflexivity. Qed.

(** The scenario of the specification: three records on two coordinates. *)
Example three_events_aggregate :
  aggregate Sample.three_events = [(("10.0", "20.0"), 2); (("30.0", "40.0"), 1)].
Proof. reflexivity. Qed.

Example three_events_pass :
  createGraphics_on Sample.stod Sample.three_events [] (Sample.init [])
  = Done [mkGraphic (mkPoint 20%Q 10%Q) PictureMarkerSymbol (Some 0);
          mkGraphic (mkPoint 20%Q 10%Q) SimpleMarkerSymbol None;
          mkGraphic (mkPoint 20%Q 10%Q) (TextSymbol 2) None;
          mkGraphic (mkPoint 40%Q 30%Q) PictureMarkerSymbol (Some 1)]
         (mkState 3 0 [mkPoint 20%Q 10%Q; mkPoint 40%Q 30%Q] [] [] []).
Proof. reflexivity. Qed.

(** The keys are compared as text: ["10"] comes before ["9"], and ["10.0"]
    and ["10.00"] are two keys. *)
Example textual_order :
  aggregate [Sample.event "9" "0"; Sample.event "10" "0"]
  = [(("10", "0"), 1); (("9", "0"), 1)].
Proof. reflexivity. Qed.

Example textual_keys :
  aggregate [Sample.event "10.0" "0"; Sample.event "10.00" "0"]
  = [(("10.0", "0"), 1); (("10.00", "0"), 1)].
Proof. reflexivity. Qed.

(** The pages of [checkPage(false)]: the counter of three full pages gives
    page 1, the counter of one full page gives none. *)
Example previous_page :
  checkPage Sample.get_events false (mkState (double:=Q) 60 0 [] [] [] [])
  = Done 1 (mkState 60 0 [] [] [] []) /\
  checkPage Sample.get_events false (mkState (double:=Q) 20 0 [] [] [] [])
  = Done (-1) (mkState 20 0 [] [] [] []).
Proof. split; reflexivity. Qed.

(** ** Machine integers *)

Lemma in_int_spec z : in_int z = true <-> INT_MIN <= z <= INT_MAX.
Proof. unfold in_int. rewrite andb_true_iff, !Z.leb_le. tauto. Qed.

Lemma to_int_small n : 0 <= n <= INT_MAX -> to_int n = n.
Proof.
  unfold to_int, INT_MAX. intros H.
  rewrite Z.mod_small; lia.
Qed.

(** ** The counting loop *)

Lemma key_eq_leibniz (a b : Key.t) : Key.eq a b <-> a = b.
Proof.
  destruct a, b; unfold Key.eq, String_as_OT.eq; simpl.
  split; [intros [-> ->]; reflexivity | intros [= -> ->]; auto].
Qed.

Lemma find_bump points k k' :
  PointMap.find k' (bump points k) =
  if key_eq_dec k k' then Some (occurrences_at points k + 1)
  else PointMap.find k' points.
Proof.
  unfold bump. rewrite PointMapFacts.add_o.
  destruct (PointMap.E.eq_dec k k') as [e|n], (key_eq_dec k k') as [e'|n'];
    try reflexivity.
  - apply key_eq_leibniz in e. contradiction.
  - subst. exfalso. apply n. apply key_eq_leibniz. reflexivity.
Qed.

Lemma find_fold_bump eventarr : forall points k,
  PointMap.find k
    (fold_left (fun points record => bump points (location_of record))
               eventarr points) =
  match count_occ key_eq_dec (map location_of eventarr) k with
  | O => PointMap.find k points
  | S n => Some (occurrences_at points k + Z.of_nat (S n))
  end.
Proof.
  induction eventarr as [|record rest IH]; intros points k;
    cbn [fold_left map count_occ].
  - reflexivity.
  - rewrite IH. unfold occurrences_at at 1. rewrite !find_bump.
    destruct (key_eq_dec (location_of record) k) as [Heq|Hne].
    + rewrite Heq.
      destruct (count_occ key_eq_dec (map location_of rest) k); f_equal; lia.
    + destruct (count_occ key_eq_dec (map location_of rest) k); reflexivity.
Qed.

Lemma find_count_points eventarr k :
  PointMap.find k (count_points eventarr) =
  match records_at eventarr k with
  | O => None
  | S n => Some (Z.of_nat (S n))
  end.
Proof.
  unfold count_points, records_at. rewrite find_fold_bump.
  destruct (count_occ _ _ _); [apply PointMapFacts.empty_o | reflexivity].
Qed.

Lemma In_elements_find (points : PointMap.t Z) k n :
  In (k, n) (PointMap.elements points) <-> PointMap.find k points = Some n.
Proof.
  rewrite <- PointMapFacts.find_mapsto_iff, PointMapFacts.elements_mapsto_iff.
  rewrite InA_alt. split.
  - intros H. exists (k, n). split; [reflexivity | assumption].
  - intros [[k' n'] [[Hk Hn] Hin]]. simpl in Hk, Hn.
    apply key_eq_leibniz in Hk. subst. assumption.
Qed.

Lemma In_aggregate eventarr k n :
  In (k, n) (aggregate eventarr) <->
  n = Z.of_nat (records_at eventarr k) /\ 0 < n.
Proof.
  unfold aggregate. rewrite In_elements_find, find_count_points.
  destruct (records_at eventarr k); split.
  - discriminate.
  - intros [-> H]. simpl in H. lia.
  - intros [= <-]. split; lia.
  - intros [-> _]. reflexivity.
Qed.

Lemma eqlistA_eqke_eq (l l' : list (Key.t * Z)) :
  eqlistA (@PointMap.eq_key_elt Z) l l' -> l = l'.
Proof.
  induction 1 as [|[k n] [k' n'] l l' [Hk Hn] _ IH]; [reflexivity|].
  simpl in Hk, Hn. apply key_eq_leibniz in Hk. subst. reflexivity.
Qed.

Lemma aggregate_Permutation eventarr eventarr' :
  Permutation eventarr eventarr' -> aggregate eventarr = aggregate eventarr'.
Proof.
  intros Hperm. apply eqlistA_eqke_eq.
  apply PointMapProps.elements_Equal_eqlistA.
  intros k. rewrite !find_count_points. unfold records_at.
  assert (Hc : Permutation (map location_of eventarr) (map location_of eventarr'))
    by (apply Permutation_map; assumption).
  rewrite (Permutation_count_occ key_eq_dec) in Hc. rewrite Hc. reflexivity.
Qed.

Lemma aggregate_sorted eventarr :
  StronglySorted Key.lt (map fst (aggregate eventarr)).
Proof.
  apply Sorted_StronglySorted.
  - intros a b c. apply Key.lt_trans.
  - unfold aggregate.
    pose proof (PointMap.elements_3 (count_points eventarr)) as Hs.
    induction Hs as [|a l _ IH Hhd]; simpl; constructor; auto.
    destruct Hhd; simpl; constructor; assumption.
Qed.

Lemma total_elements points :
  total points = sum_occurrences (PointMap.elements points).
Proof.
  unfold total. rewrite PointMap.fold_1.
  assert (H : forall l i,
    fold_left (fun a (p : Key.t * Z) => snd p + a) l i = i + sum_occurrences l).
  { induction l as [|p l IH]; intros i; simpl; [lia | rewrite IH; lia]. }
  rewrite H. reflexivity.
Qed.

Lemma total_Add {points points' k n} :
  ~ PointMap.In k points -> PointMapProps.P.Add k n points points' ->
  total points' = n + total points.
Proof.
  intros Hnot Hadd. unfold total.
  refine (@PointMapProps.P.fold_Add Z Z eq _ (fun _ n acc => n + acc)
            _ _ points points' k n 0 Hnot Hadd).
  - intros k1 k2 _ n1 n2 -> a1 a2 ->. reflexivity.
  - intros k1 k2 n1 n2 a _. lia.
Qed.

Lemma total_bump points k : total (bump points k) = total points + 1.
Proof.
  set (rest := PointMap.remove k points).
  assert (Hnot : ~ PointMap.In k rest).
  { unfold rest. rewrite PointMapFacts.remove_in_iff.
    intros [H _]. apply H. apply key_eq_leibniz. reflexivity. }
  assert (Hnew : PointMapProps.P.Add k (occurrences_at points k + 1) rest
                   (bump points k)).
  { intros k'. unfold bump, rest.
    rewrite !PointMapFacts.add_o, PointMapFacts.remove_o.
    destruct (PointMap.E.eq_dec k k'); reflexivity. }
  rewrite (total_Add Hnot Hnew).
  destruct (PointMap.find k points) as [n|] eqn:Hfind.
  - assert (Hold : PointMapProps.P.Add k n rest points).
    { intros k'. unfold rest.
      rewrite PointMapFacts.add_o, PointMapFacts.remove_o.
      destruct (PointMap.E.eq_dec k k') as [e|_]; [|reflexivity].
      apply key_eq_leibniz in e. subst. assumption. }
    rewrite (total_Add Hnot Hold). unfold occurrences_at. rewrite Hfind. lia.
  - assert (Hsame : PointMap.Equal rest points).
    { intros k'. unfold rest. rewrite PointMapFacts.remove_o.
      destruct (PointMap.E.eq_dec k k') as [e|_]; [|reflexivity].
      apply key_eq_leibniz in e. subst. symmetry. assumption. }
    unfold occurrences_at. rewrite Hfind.
    replace (total rest) with (total points); [lia|].
    rewrite !total_elements. f_equal. symmetry. apply eqlistA_eqke_eq.
    apply PointMapProps.elements_Equal_eqlistA. assumption.
Qed.

Lemma total_fold_bump eventarr : forall points,
  total (fold_left (fun points record => bump points (location_of record))
                   eventarr points) =
  total points + Z.of_nat (length eventarr).
Proof.
  induction eventarr as [|record rest IH]; intros points;
    cbn [fold_left length].
  - lia.
  - rewrite IH, total_bump. lia.
Qed.

Lemma sum_occurrences_aggregate eventarr :
  sum_occurrences (aggregate eventarr) = Z.of_nat (length eventarr).
Proof.
  unfold aggregate. rewrite <- total_elements.
  unfold count_points. rewrite total_fold_bump.
  unfold total. rewrite PointMap.fold_1. reflexivity.
Qed.

Lemma aggregate_nil : aggregate [] = [].
Proof. reflexivity. Qed.

Lemma aggregate_nonempty eventarr :
  eventarr <> [] -> PointMap.is_empty (count_points eventarr) = false.
Proof.
  intros Hne. destruct eventarr as [|record rest]; [contradiction|].
  destruct (PointMap.is_empty _) eqn:Hempty; [|reflexivity].
  apply PointMap.is_empty_2 in Hempty.
  pose proof (find_count_points (record :: rest) (location_of record)) as Hf.
  unfold records_at in Hf. cbn [map count_occ] in Hf.
  destruct (key_eq_dec (location_of record) (location_of record)); [|contradiction].
  apply PointMapFacts.find_mapsto_iff in Hf. apply Hempty in Hf. contradiction.
Qed.

(** ** The second loop of [createGraphics] *)

Section Aggregation.

Context {double : Type} (stod : string -> double + exn) {Net : Type}.

Local Abbreviation State := (State double Net).

Lemma set_activePoints_same (s : State) :
  set_activePoints (activePoints s) s = s.
Proof. destruct s; reflexivity. Qed.

Lemma set_results_same (s : State) : set_results (results s) s = s.
Proof. destruct s; reflexivity. Qed.

Lemma State_ext (s s' : State) :
  results s = results s' -> currIndex s = currIndex s' ->
  activePoints s = activePoints s' ->
  graphicsOverlays s = graphicsOverlays s' ->
  net s = net s' -> trace s = trace s' -> s = s'.
Proof. destruct s, s'; cbn; intros; subst; reflexivity. Qed.

(** The second loop, in closed form: it appends the graphics and the points
    of the conversions that succeed, and throws what the first failing
    conversion throws. *)
Lemma for_each_location_convert locations :
  forall index overlay (s : State),
    for_each_location stod locations index overlay s =
    match convert stod locations with
    | (points, None) =>
        Done (overlay ++ graphics_of index points)
             (set_activePoints (activePoints s ++ map fst points) s)
    | (points, Some e) =>
        Throws e (set_activePoints (activePoints s ++ map fst points) s)
    end.
Proof.
  induction locations as [|[location occurrences] rest IH];
    intros index overlay s; cbn [for_each_location convert].
  - cbn [graphics_of map]. rewrite !app_nil_r, set_activePoints_same.
    reflexivity.
  - unfold bind at 1, call_stod.
    destruct (stod (fst location)) as [lat|e]; cbn.
    2: { rewrite app_nil_r, set_activePoints_same. reflexivity. }
    destruct (stod (snd location)) as [lng|e]; cbn.
    2: { rewrite app_nil_r, set_activePoints_same. reflexivity. }
    rewrite IH.
    destruct (convert stod rest) as [points [e|]];
      cbn [map fst graphics_of activePoints set_activePoints];
      rewrite <- ?app_assoc; cbn [app]; try reflexivity.
    destruct (1 <? occurrences); rewrite <- ?app_assoc; reflexivity.
Qed.

Lemma convert_counters locations points :
  convert stod locations = (points, None) ->
  map snd points = map snd locations /\
  map (@Some _) (map fst points) = map (to_point stod) (map fst locations).
Proof.
  revert points.
  induction locations as [|[location occurrences] rest IH]; intros points;
    cbn [convert map fst snd].
  - intros [= <-]. split; reflexivity.
  - unfold to_point at 1.
    destruct (stod (fst location)) as [lat|e]; [|discriminate].
    destruct (stod (snd location)) as [lng|e]; [|discriminate].
    destruct (convert stod rest) as [points' e'] eqn:Hrest.
    intros [= <- ->]. destruct (IH points' eq_refl) as [H1 H2].
    cbn [map fst snd]. rewrite H1, H2. split; reflexivity.
Qed.

Lemma sum_counts_occurrences points (locations : list (Key.t * Z)) :
  map snd points = map snd locations ->
  sum_counts (double:=double) points = sum_occurrences locations.
Proof.
  revert locations.
  induction points as [|p points IH]; intros [|l locations]; try discriminate.
  - reflexivity.
  - cbn [map]. intros [= Hp Hrest]. unfold sum_counts, sum_occurrences.
    cbn [fold_right]. rewrite Hp. f_equal. apply (IH _ Hrest).
Qed.

(** Where every key converts, so does the whole list. *)
Lemma convert_all locations :
  Forall (fun l => to_point stod (fst l) <> None) locations ->
  exists points, convert stod locations = (points, None).
Proof.
  induction 1 as [|[location occurrences] rest Hhd _ [points IH]];
    cbn [convert].
  - eexists; reflexivity.
  - unfold to_point in Hhd. cbn [fst] in Hhd.
    destruct (stod (fst location)); [|contradiction].
    destruct (stod (snd location)); [|contradiction].
    rewrite IH. eexists; reflexivity.
Qed.

(** Where some key does not convert, the list splits at the first such key. *)
Lemma convert_first_failure locations :
  Exists (fun l => to_point stod (fst l) = None) locations ->
  exists good bad rest points e,
    locations = good ++ bad :: rest /\
    convert stod good = (points, None) /\
    convert stod [bad] = ([], Some e) /\
    convert stod locations = (points, Some e).
Proof.
  induction locations as [|[location occurrences] rest IH]; intros Hex.
  - inversion Hex.
  - destruct (to_point stod location) as [p|] eqn:Hp.
    + assert (Hrest : Exists (fun l => to_point stod (fst l) = None) rest).
      { inversion Hex as [? ? H|]; subst; [|assumption].
        cbn [fst] in H. congruence. }
      destruct (IH Hrest) as (good & bad & rest' & points & e & -> & Hg & Hb & Hl).
      unfold to_point in Hp.
      destruct (stod (fst location)) as [lat|] eqn:Hlat; [|discriminate].
      destruct (stod (snd location)) as [lng|] eqn:Hlng; [|discriminate].
      exists ((location, occurrences) :: good), bad, rest',
             ((mkPoint lng lat, occurrences) :: points), e.
      cbn [convert app]. rewrite Hlat, Hlng, Hg, Hl. auto.
    + unfold to_point in Hp.
      assert (He : exists e, convert stod [(location, occurrences)] = ([], Some e)
                   /\ convert stod ((location, occurrences) :: rest) = ([], Some e)).
      { cbn [convert].
        destruct (stod (fst location)) as [lat|e]; [|exists e; auto].
        destruct (stod (snd location)) as [lng|e]; [discriminate|exists e; auto]. }
      destruct He as (e & He1 & He2).
      exists [], (location, occurrences), rest, [], e. auto.
Qed.

(** Every key of the map is the key of a record. *)
Lemma aggregate_keys eventarr location :
  In location (aggregate eventarr) ->
  exists record, In record eventarr /\ location_of record = fst location.
Proof.
  destruct location as [k n]. rewrite In_aggregate. intros [-> Hpos].
  assert (Hin : In k (map location_of eventarr)).
  { apply (count_occ_In key_eq_dec). unfold records_at in Hpos. lia. }
  apply in_map_iff in Hin. destruct Hin as (record & <- & Hin).
  exists record. auto.
Qed.

(** Every record has its key in the map. *)
Lemma aggregate_covers eventarr record :
  In record eventarr ->
  exists n, In (location_of record, n) (aggregate eventarr).
Proof.
  intros Hin. exists (Z.of_nat (records_at eventarr (location_of record))).
  apply In_aggregate. split; [reflexivity|].
  assert (H : In (location_of record) (map location_of eventarr))
    by (apply in_map; assumption).
  apply (count_occ_In key_eq_dec) in H. unfold records_at. lia.
Qed.

Lemma aggregate_not_nil eventarr : eventarr <> [] -> aggregate eventarr <> [].
Proof.
  intros Hne Hnil. destruct eventarr as [|record rest]; [contradiction|].
  destruct (aggregate_covers (record :: rest) record (or_introl eq_refl))
    as [n Hin].
  rewrite Hnil in Hin. contradiction.
Qed.

Lemma parsable_all eventarr :
  forallb (parsable stod) eventarr = true ->
  Forall (fun l => to_point stod (fst l) <> None) (aggregate eventarr).
Proof.
  rewrite forallb_forall. intros Hall. apply Forall_forall.
  intros location Hin.
  destruct (aggregate_keys _ _ Hin) as (record & Hrec & <-).
  specialize (Hall record Hrec). unfold parsable in Hall.
  destruct (to_point stod (location_of record)); [discriminate|discriminate].
Qed.

Lemma parsable_some eventarr :
  existsb (fun record => negb (parsable stod record)) eventarr = true ->
  Exists (fun l => to_point stod (fst l) = None) (aggregate eventarr).
Proof.
  rewrite existsb_exists. intros (record & Hin & Hbad).
  destruct (aggregate_covers _ _ Hin) as [n Hn].
  apply Exists_exists. exists (location_of record, n). split; [assumption|].
  cbn [fst]. unfold parsable in Hbad.
  destruct (to_point stod (location_of record)); [discriminate|reflexivity].
Qed.

Lemma filter_all {A} (f : A -> bool) (l : list A) :
  forallb f l = true -> filter f l = l.
Proof.
  induction l as [|a l IH]; cbn; [reflexivity|].
  destruct (f a); cbn; [|discriminate]. intros H. rewrite IH; auto.
Qed.

(** [createGraphics] on a non-empty answer, in closed form. *)
Lemma createGraphics_on_nonempty eventarr overlay (s : State) :
  eventarr <> [] ->
  createGraphics_on stod eventarr overlay s =
  let r := results s + to_int (Z.of_nat (length eventarr)) in
  if in_int r then
    match convert stod (aggregate eventarr) with
    | (points, None) =>
        Done (overlay ++ graphics_of 0 points)
             (set_activePoints (map fst points) (set_results r s))
    | (points, Some e) =>
        Throws e (set_activePoints (map fst points) (set_results r s))
    end
  else Undefined.
Proof.
  intros Hne. unfold createGraphics_on, bind, read, int_arith. cbv zeta.
  destruct (in_int _); [|reflexivity].
  cbn. rewrite (aggregate_nonempty _ Hne). unfold update.
  rewrite for_each_location_convert. fold (aggregate eventarr).
  destruct (convert stod (aggregate eventarr)) as [points [e|]]; reflexivity.
Qed.

(** [createGraphics] on an empty answer: the guard of line 85 returns. *)
Lemma createGraphics_on_nil overlay (s : State) :
  createGraphics_on stod [] overlay s =
  if in_int (results s) then Done overlay s else Undefined.
Proof.
  unfold createGraphics_on, bind, read, int_arith. cbn [length Z.of_nat].
  change (to_int 0) with 0. rewrite Z.add_0_r.
  destruct (in_int (results s)); [|reflexivity].
  cbn. unfold ret. rewrite set_results_same. reflexivity.
Qed.

End Aggregation.

(** ** The controller *)

Ltac int_lia :=
  unfold INT_MIN, INT_MAX in *;
  change (2 ^ 31) with 2147483648 in *;
  lia.

Lemma in_int_intro z : INT_MIN <= z <= INT_MAX -> in_int z = true.
Proof. apply in_int_spec. Qed.

Section Controller.

Context {double : Type} (stod : string -> double + exn).
Context {Net : Type}.
Context (get_events : option Request -> Net -> list RawEventRecord * Net).

Local Abbreviation State := (State double Net).

Lemma searchHandler_closed text page (s : State) :
  in_int (page * 20) = true ->
  searchHandler stod get_events text page s =
  match createGraphics_on stod (searched get_events text page s) []
          (before_pass get_events text page s) with
  | Done overlay s2 =>
      match activePoints s2 with
      | first :: _ =>
          Done tt (log MapViewChanged
                    (log (SetViewpointAnimated first)
                       (set_graphicsOverlays (graphicsOverlays s2 ++ [overlay]) s2)))
      | [] => Undefined
      end
  | Throws e s2 => Throws e s2
  | Undefined => Undefined
  end.
Proof.
  intros Hfit.
  unfold searchHandler, bind at 1, int_arith. rewrite Hfit. unfold ret at 1.
  unfold before_pass, searched, net_after_request, search_request.
  unfold createGraphics, call_get_events, bind, update, read.
  generalize (createGraphics_on stod (Net:=Net)). intros pass.
  destruct (0 <? page); cbn;
    match goal with
    | |- context [get_events (Some ?r) (net s)] =>
        destruct (get_events (Some r) (net s)) as [answer n1]
    end; cbn;
    destruct (get_events None n1) as [eventarr n2]; cbn;
    match goal with
    | |- context [pass eventarr [] ?s1] =>
        destruct (pass eventarr [] s1) as [overlay s2|e s2|]
    end; try reflexivity;
    unfold vector_at; destruct (activePoints s2) as [|first others];
    reflexivity.
Qed.

(** No index is inside an empty vector. *)
Lemma vector_at_nil i (s : State) : vector_at [] i s = Undefined.
Proof.
  unfold vector_at.
  destruct ((0 <=? i) && (i <? Z.of_nat (length (@nil (Point double)))));
    [|reflexivity].
  destruct (Z.to_nat i); reflexivity.
Qed.

(** [switchViews] on a cursor inside a non-empty list. *)
Lemma switchViews_step (next : bool) (s : State) :
  1 <= Z.of_nat (length (activePoints s)) <= INT_MAX ->
  0 <= currIndex s < Z.of_nat (length (activePoints s)) ->
  exists point,
    nth_error (activePoints s)
      (Z.to_nat ((currIndex s + (if next then 1 else -1))
                 mod Z.of_nat (length (activePoints s)))) = Some point /\
    switchViews next s =
    Done tt (log MapViewChanged
              (set_currIndex ((currIndex s + (if next then 1 else -1))
                              mod Z.of_nat (length (activePoints s)))
                 (log (SetViewpointAnimated point) s))).
Proof.
  intros HN Hi. set (N := Z.of_nat (length (activePoints s))) in *.
  set (i := currIndex s) in *.
  set (step := if next then 1 else -1).
  assert (Hstep : step = 1 \/ step = -1) by (destruct next; auto).
  set (j := (i + step) mod N).
  assert (Hj : 0 <= j < N) by (apply Z.mod_pos_bound; lia).
  assert (Hsel : (if N - 1 <? i + step then 0
                  else if i + step <? 0 then N - 1 else i + step) = j).
  { unfold j. destruct (Z.ltb_spec (N - 1) (i + step)).
    - replace (i + step) with N by lia. rewrite Z.mod_same; lia.
    - destruct (Z.ltb_spec (i + step) 0).
      + replace (i + step) with (N - 1 + (-1) * N) by lia.
        rewrite Z.mod_add by lia. rewrite Z.mod_small; lia.
      + rewrite Z.mod_small; lia. }
  destruct (nth_error (activePoints s) (Z.to_nat j)) as [point|] eqn:Hnth.
  2: { apply nth_error_None in Hnth. unfold N in Hj. lia. }
  exists point. split; [reflexivity|].
  unfold switchViews, bind, read, int_arith. fold i. fold step.
  rewrite in_int_intro by int_lia. unfold ret at 1. fold N.
  rewrite (to_int_small N) by lia.
  rewrite in_int_intro by int_lia. unfold ret at 1. rewrite Hsel.
  unfold vector_at. fold N.
  assert (Hrange : (0 <=? j) && (j <? N) = true).
  { apply andb_true_iff. split; [apply Z.leb_le | apply Z.ltb_lt]; lia. }
  rewrite Hrange, Hnth. reflexivity.
Qed.

Lemma presses_index count : forall (s : State),
  1 <= Z.of_nat (length (activePoints s)) <= INT_MAX ->
  0 <= currIndex s < Z.of_nat (length (activePoints s)) ->
  index_after (presses count true s) =
  Some ((currIndex s + Z.of_nat count) mod Z.of_nat (length (activePoints s))).
Proof.
  induction count as [|count IH]; intros s HN Hi.
  - cbn [presses index_after ret Z.of_nat]. rewrite Z.add_0_r, Z.mod_small; auto.
  - cbn [presses]. unfold bind.
    destruct (switchViews_step true s HN Hi) as (point & _ & ->).
    rewrite IH; cbn [activePoints currIndex log set_currIndex]; try assumption.
    + f_equal. rewrite Zplus_mod_idemp_l. f_equal. lia.
    + apply Z.mod_pos_bound. lia.
Qed.

End Controller.

Section Search.

Context {double : Type} (stod : string -> double + exn).
Context {Net : Type}.
Context (get_events : option Request -> Net -> list RawEventRecord * Net).

Local Abbreviation State := (State double Net).

(** A search whose answer is not empty and converts throughout returns, and
    leaves the state below. *)
Lemma searchHandler_completes text page (s : State) :
  in_int (page * 20) = true ->
  searched get_events text page s <> [] ->
  forallb (parsable stod) (searched get_events text page s) = true ->
  in_int ((if 0 <? page then 0 else results s)
          + to_int (Z.of_nat (length (searched get_events text page s)))) = true ->
  exists first others points,
    convert stod (aggregate (searched get_events text page s)) = (points, None) /\
    map fst points = first :: others /\
    searchHandler stod get_events text page s =
    Done tt
      (mkState
         ((if 0 <? page then 0 else results s)
          + to_int (Z.of_nat (length (searched get_events text page s))))
         (currIndex s)
         (first :: others)
         [graphics_of 0 points]
         (snd (get_events None (net_after_request get_events text page s)))
         (trace s ++ [Fetched (search_request text page); Fetched None;
                      SetViewpointAnimated first; MapViewChanged])).
Proof.
  intros Hfit Hne Hall Hsum.
  set (eventarr := searched get_events text page s) in *.
  destruct (convert_all stod _ (parsable_all stod _ Hall)) as [points Hconv].
  fold eventarr in Hconv.
  destruct (map fst points) as [|first others] eqn:Hpoints.
  { exfalso. apply (aggregate_not_nil eventarr Hne).
    destruct (convert_counters stod _ _ Hconv) as [Hsnd _].
    destruct points; [|discriminate].
    destruct (aggregate eventarr); [reflexivity|discriminate]. }
  exists first, others, points. split; [assumption|]. split; [assumption|].
  rewrite (searchHandler_closed stod get_events text page s Hfit).
  fold eventarr. rewrite (createGraphics_on_nonempty stod eventarr [] _ Hne).
  cbv zeta.
  assert (Hres : results (before_pass get_events text page s) =
                 if 0 <? page then 0 else results s).
  { unfold before_pass. destruct (0 <? page); reflexivity. }
  rewrite Hres, Hsum, Hconv. cbn [activePoints set_activePoints].
  rewrite Hpoints. unfold before_pass. f_equal.
  apply State_ext; destruct (0 <? page); try reflexivity.
  all: cbn [trace log set_graphicsOverlays set_activePoints set_results set_net];
    rewrite <- !app_assoc; reflexivity.
Qed.

End Search.

(** * The aggregation pass *)

Section AggregationPass.

Context {double : Type} (stod : string -> double + exn) {Net : Type}.

Local Abbreviation State := (State double Net).

(** C1 (as amended).  The counting loop groups the records by the exact pair
    of their [lat] and [lng] strings: the map holds a key exactly where some
    record carries it, with the number of those records as its counter, and
    the counters add up to the number of input records, convertible or not.
    When every record has convertible coordinates the pass returns: it
    emits one point per key, in key order, with that key's counter, and the
    counters of the emitted points add up to the number of records with
    convertible coordinates. *)
Theorem aggregate_occurrences (eventarr : list RawEventRecord) :
  (forall k n, In (k, n) (aggregate eventarr) <->
               n = Z.of_nat (records_at eventarr k) /\ 0 < n) /\
  sum_occurrences (aggregate eventarr) = Z.of_nat (length eventarr) /\
  (forall overlay (s : State),
     forallb (parsable stod) eventarr = true ->
     in_int (results s + to_int (Z.of_nat (length eventarr))) = true ->
     exists points,
       createGraphics_on stod eventarr overlay s =
       Done (overlay ++ graphics_of 0 points)
            (match eventarr with
             | [] => s
             | _ :: _ =>
                 set_activePoints (map fst points)
                   (set_results
                      (results s + to_int (Z.of_nat (length eventarr))) s)
             end) /\
       map snd points = map snd (aggregate eventarr) /\
       map (@Some _) (map fst points) =
       map (to_point stod) (map fst (aggregate eventarr)) /\
       sum_counts points =
       Z.of_nat (length (filter (parsable stod) eventarr))).
Proof.
  split; [intros k n; apply In_aggregate|].
  split; [apply sum_occurrences_aggregate|].
  intros overlay s Hall Hfit.
  destruct (convert_all stod _ (parsable_all stod _ Hall)) as [points Hconv].
  destruct (convert_counters stod _ _ Hconv) as [Hsnd Hfst].
  exists points. repeat split; try assumption.
  - destruct eventarr as [|record rest].
    + rewrite createGraphics_on_nil.
      change (to_int (Z.of_nat (length (@nil RawEventRecord)))) with 0 in Hfit.
      rewrite Z.add_0_r in Hfit. rewrite Hfit.
      rewrite aggregate_nil in Hconv. injection Hconv as <-.
      cbn [graphics_of]. rewrite app_nil_r. reflexivity.
    + rewrite createGraphics_on_nonempty by discriminate.
      cbv zeta. rewrite Hfit, Hconv. reflexivity.
  - rewrite (sum_counts_occurrences _ _ Hsnd), sum_occurrences_aggregate.
    rewrite (filter_all _ _ Hall). reflexivity.
Qed.

(** C2.  The pass does not depend on the order of arrival: a permutation of
    the records leaves the entries of the map, and with them the whole
    outcome of the pass (points, graphics, ids, or the exception), the same.
    The entries come in strictly ascending order of the pair of strings, and
    the points of a pass that returns stand in that order. *)
Theorem aggregation_order_independent
    (eventarr eventarr' : list RawEventRecord) overlay (s : State) :
  Permutation eventarr eventarr' ->
  aggregate eventarr = aggregate eventarr' /\
  createGraphics_on stod eventarr overlay s =
  createGraphics_on stod eventarr' overlay s /\
  StronglySorted pair_lt (map fst (aggregate eventarr)) /\
  (forall overlay' s',
     eventarr <> [] ->
     createGraphics_on stod eventarr overlay s = Done overlay' s' ->
     map (@Some _) (activePoints s') =
     map (to_point stod) (map fst (aggregate eventarr))).
Proof.
  intros Hperm.
  pose proof (aggregate_Permutation _ _ Hperm) as Hagg.
  split; [assumption|]. split; [|split].
  - destruct eventarr as [|record rest].
    + apply Permutation_nil in Hperm. subst. reflexivity.
    + assert (Hne' : eventarr' <> []).
      { intros ->. apply Permutation_sym, Permutation_nil in Hperm.
        discriminate. }
      rewrite !createGraphics_on_nonempty by (assumption || discriminate).
      rewrite <- Hagg, <- (Permutation_length Hperm). reflexivity.
  - apply aggregate_sorted.
  - intros overlay' s' Hne. rewrite createGraphics_on_nonempty by assumption.
    cbv zeta. destruct (in_int _); [|discriminate].
    destruct (convert stod (aggregate eventarr)) as [points [e|]] eqn:Hconv;
      [discriminate|].
    intros [= _ <-]. cbn [activePoints set_activePoints].
    apply (convert_counters stod _ _ Hconv).
Qed.

(** C5 (as amended).  A record whose [lat] or [lng] does not convert aborts
    the pass: [createGraphics] leaves with the exception of [std::stod] at
    the first key, in key order, that does not convert.  The points of the
    keys before it have been appended to the fresh list; no record is
    dropped and nothing is counted but the records fetched. *)
Theorem malformed_coordinate_aborts
    (eventarr : list RawEventRecord) overlay (s : State) :
  existsb (fun record => negb (parsable stod record)) eventarr = true ->
  in_int (results s + to_int (Z.of_nat (length eventarr))) = true ->
  exists good bad rest points e,
    aggregate eventarr = good ++ bad :: rest /\
    convert stod good = (points, None) /\
    convert stod [bad] = ([], Some e) /\
    createGraphics_on stod eventarr overlay s =
    Throws e
      (set_activePoints (map fst points)
         (set_results (results s + to_int (Z.of_nat (length eventarr))) s)).
Proof.
  intros Hbad Hfit.
  destruct (convert_first_failure stod _ (parsable_some stod _ Hbad))
    as (good & bad & rest & points & e & Hsplit & Hgood & Hfail & Hconv).
  exists good, bad, rest, points, e. repeat split; try assumption.
  assert (Hne : eventarr <> []) by (intros ->; discriminate).
  rewrite createGraphics_on_nonempty by assumption.
  cbv zeta. rewrite Hfit, Hconv. reflexivity.
Qed.

(** C10 (as amended).  A pass over a non-empty answer builds the list of
    points afresh: what the list held before has no bearing on the outcome.
    A pass over an empty answer stops at the guard of line 85: it creates no
    graphic, assigns no id and leaves the state, the previous list of points
    included, as it was. *)
Theorem createGraphics_fresh_list
    (eventarr : list RawEventRecord) overlay (s : State) :
  (eventarr <> [] ->
   createGraphics_on stod eventarr overlay s =
   createGraphics_on stod eventarr overlay (set_activePoints [] s)) /\
  (in_int (results s) = true ->
   createGraphics_on stod [] overlay s = Done overlay s).
Proof.
  split.
  - intros Hne. rewrite !createGraphics_on_nonempty by assumption. reflexivity.
  - intros Hfit. rewrite createGraphics_on_nil, Hfit. reflexivity.
Qed.

End AggregationPass.

(** * Paging, stepping and clicking *)

Section Session.

Context {double : Type} (stod : string -> double + exn).
Context {Net : Type}.
Context (get_events : option Request -> Net -> list RawEventRecord * Net).

Local Abbreviation State := (State double Net).

(** C3 (the code as written).  A search that returns leaves in [results]
    the number of records of its pass added to the previous counter when
    [page] is 0, and to 0 when [page] is positive: line 166 resets the
    counter on the pages after the first, not on a fresh search. *)
Theorem searchHandler_results text page (s : State) :
  in_int (page * 20) = true ->
  searched get_events text page s <> [] ->
  forallb (parsable stod) (searched get_events text page s) = true ->
  in_int ((if 0 <? page then 0 else results s)
          + to_int (Z.of_nat (length (searched get_events text page s)))) = true ->
  exists s',
    searchHandler stod get_events text page s = Done tt s' /\
    results s' =
    (if 0 <? page then 0 else results s)
    + to_int (Z.of_nat (length (searched get_events text page s))).
Proof.
  intros Hfit Hne Hall Hsum.
  destruct (searchHandler_completes stod get_events text page s
              Hfit Hne Hall Hsum) as (first & others & points & _ & _ & ->).
  eexists. split; reflexivity.
Qed.

(** C4 (the code as written).  [checkPage(true)] returns -1 and calls
    nothing when the counter is not a multiple of 20.  When it is, the code
    calls [get_events] twice, first with a limit of 1 and the offset
    [page + 1], then without arguments, and returns [page + 1] exactly when
    the second answer has a record. *)
Theorem checkPage_next (s : State) :
  (Z.rem (results s) 20 <> 0 -> checkPage get_events true s = Done (-1) s) /\
  (Z.rem (results s) 20 = 0 ->
   checkPage get_events true s =
   Done (if 1 <=? Z.of_nat (length
                 (fst (get_events None
                         (snd (get_events (probe_request (results s)) (net s))))))
         then Z.quot (results s) 20 - 1 + 1
         else -1)
        (log (Fetched None)
           (set_net (snd (get_events None
                            (snd (get_events (probe_request (results s)) (net s)))))
              (log (Fetched (probe_request (results s)))
                 (set_net (snd (get_events (probe_request (results s)) (net s)))
                    s))))).
Proof.
  unfold checkPage, bind, read, probe_request. split; intros Hrem.
  - apply Z.eqb_neq in Hrem. rewrite Hrem. reflexivity.
  - apply Z.eqb_eq in Hrem. rewrite Hrem. unfold call_get_events.
    match goal with
    | |- context [get_events (Some ?r) (net s)] =>
        destruct (get_events (Some r) (net s)) as [answer n1]
    end.
    cbn [snd net set_net log]. destruct (get_events None n1) as [probe n2].
    cbn [fst snd]. destruct (1 <=? Z.of_nat (length probe)); reflexivity.
Qed.

(** C6 (as amended).  A click on a graphic whose id lies inside the current
    list of points pans to the point at that position of the current list
    and changes nothing else; the pass that assigned the id plays no part. *)
Theorem click_resolves clickedGraphic others (s : State) :
  0 <= property_id clickedGraphic < Z.of_nat (length (activePoints s)) ->
  exists point,
    nth_error (activePoints s) (Z.to_nat (property_id clickedGraphic))
    = Some point /\
    identifyCompleted (Some (clickedGraphic :: others)) s =
    Done tt (log (SetViewpointAnimated point) s).
Proof.
  intros Hid.
  destruct (nth_error (activePoints s) (Z.to_nat (property_id clickedGraphic)))
    as [point|] eqn:Hnth.
  2: { apply nth_error_None in Hnth. lia. }
  exists point. split; [reflexivity|].
  unfold identifyCompleted, bind, read, vector_at.
  assert (Hrange : (0 <=? property_id clickedGraphic)
                   && (property_id clickedGraphic
                       <? Z.of_nat (length (activePoints s))) = true).
  { apply andb_true_iff. split; [apply Z.leb_le | apply Z.ltb_lt]; lia. }
  rewrite Hrange, Hnth. reflexivity.
Qed.

(** C7.  On a list of [N >= 1] points and a cursor in [0, N): a step
    forward moves the cursor to the next index and from [N - 1] to 0, a step
    back moves it to the previous index and from 0 to [N - 1] (for [N = 1]
    both leave it at 0), [N] steps forward bring the cursor back to where
    it was, and a step forward followed by a step back does too. *)
Theorem switchViews_cyclic (s : State) :
  1 <= Z.of_nat (length (activePoints s)) <= INT_MAX ->
  0 <= currIndex s < Z.of_nat (length (activePoints s)) ->
  index_after (switchViews true s)
  = Some (if currIndex s =? Z.of_nat (length (activePoints s)) - 1
          then 0 else currIndex s + 1) /\
  index_after (switchViews false s)
  = Some (if currIndex s =? 0
          then Z.of_nat (length (activePoints s)) - 1 else currIndex s - 1) /\
  index_after (presses (length (activePoints s)) true s) = Some (currIndex s) /\
  index_after (bind (switchViews true) (fun _ => switchViews false) s)
  = Some (currIndex s).
Proof.
  intros HN Hi. set (N := Z.of_nat (length (activePoints s))) in *.
  repeat split.
  - destruct (switchViews_step true s HN Hi) as (point & _ & ->).
    cbn [index_after currIndex log set_currIndex]. fold N. f_equal.
    destruct (Z.eqb_spec (currIndex s) (N - 1)) as [Hlast|Hinner].
    + replace (currIndex s + 1) with N by lia. apply Z.mod_same. lia.
    + apply Z.mod_small. lia.
  - destruct (switchViews_step false s HN Hi) as (point & _ & ->).
    cbn [index_after currIndex log set_currIndex]. fold N. f_equal.
    destruct (Z.eqb_spec (currIndex s) 0) as [Hfirst|Hinner].
    + rewrite Hfirst. replace (0 + -1) with (N - 1 + (-1) * N) by lia.
      rewrite Z.mod_add by lia. apply Z.mod_small. lia.
    + apply Z.mod_small. lia.
  - rewrite presses_index by assumption. fold N. f_equal.
    replace (currIndex s + N) with (currIndex s + 1 * N) by lia.
    rewrite Z.mod_add by lia. apply Z.mod_small. lia.
  - unfold bind.
    destruct (switchViews_step true s HN Hi) as (point & _ & ->).
    fold N.
    set (s1 := log MapViewChanged
                 (set_currIndex ((currIndex s + 1) mod N)
                    (log (SetViewpointAnimated point) s))).
    assert (HN1 : 1 <= Z.of_nat (length (activePoints s1)) <= INT_MAX)
      by exact HN.
    assert (Hi1 : 0 <= currIndex s1 < Z.of_nat (length (activePoints s1)))
      by (apply Z.mod_pos_bound; fold N; lia).
    destruct (switchViews_step false s1 HN1 Hi1) as (point' & _ & ->).
    cbn [index_after currIndex log set_currIndex activePoints s1]. fold N.
    f_equal. rewrite Zplus_mod_idemp_l.
    replace (currIndex s + 1 + -1) with (currIndex s) by lia.
    apply Z.mod_small. lia.
Qed.

(** C8 (the code as written).  On an empty list of points a press of either
    button reads [activePoints[index]] outside the vector: the behaviour of
    [switchViews] is undefined, whatever the cursor. *)
Theorem switchViews_empty next (s : State) :
  activePoints s = [] -> switchViews next s = Undefined.
Proof.
  intros Hempty. unfold switchViews, bind, read, int_arith.
  destruct (in_int _); [|reflexivity].
  unfold ret at 1. rewrite Hempty. cbn [length Z.of_nat].
  change (in_int (to_int 0 - 1)) with true. cbv iota.
  unfold ret at 1. rewrite vector_at_nil. reflexivity.
Qed.

(** C9 (as amended).  A search whose answer is not empty and converts
    throughout returns with the first point of the new list as the last
    viewpoint set, followed by the change signal.  The cursor is not
    touched: it keeps the index it had before the search. *)
Theorem searchHandler_focuses_first text page (s : State) :
  in_int (page * 20) = true ->
  searched get_events text page s <> [] ->
  forallb (parsable stod) (searched get_events text page s) = true ->
  in_int ((if 0 <? page then 0 else results s)
          + to_int (Z.of_nat (length (searched get_events text page s)))) = true ->
  exists s' first others,
    searchHandler stod get_events text page s = Done tt s' /\
    activePoints s' = first :: others /\
    map (@Some _) (activePoints s') =
    map (to_point stod)
        (map fst (aggregate (searched get_events text page s))) /\
    trace s' = trace s ++ [Fetched (search_request text page); Fetched None;
                           SetViewpointAnimated first; MapViewChanged] /\
    currIndex s' = currIndex s.
Proof.
  intros Hfit Hne Hall Hsum.
  destruct (searchHandler_completes stod get_events text page s
              Hfit Hne Hall Hsum)
    as (first & others & points & Hconv & Hpoints & ->).
  eexists. exists first, others. split; [reflexivity|].
  cbn [activePoints trace currIndex]. repeat split.
  rewrite <- Hpoints. apply (convert_counters stod _ _ Hconv).
Qed.

End Session.

(** * The claims on the sample environment *)

(** C1 (as stated) fails on a record without coordinates: the map counts
    two records, one of them has convertible coordinates, and the pass
    throws before it emits a point. *)
Lemma parsable_sum_counterexample :
  sum_occurrences (aggregate Sample.mixed_events) <>
  Z.of_nat (length (filter (parsable Sample.stod) Sample.mixed_events)) /\
  createGraphics_on Sample.stod Sample.mixed_events [] (Sample.init [])
  = Throws invalid_argument (mkState 2 0 [] [] [] []).
Proof. split; [vm_compute; discriminate | reflexivity]. Qed.

Lemma aggregate_occurrences_witness :
  forallb (parsable Sample.stod) Sample.three_events = true /\
  in_int (results (Sample.init [])
          + to_int (Z.of_nat (length Sample.three_events))) = true /\
  exists points,
    createGraphics_on Sample.stod Sample.three_events [] (Sample.init [])
    = Done ([] ++ graphics_of 0 points)
           (set_activePoints (map fst points)
              (set_results
                 (results (Sample.init [])
                  + to_int (Z.of_nat (length Sample.three_events)))
                 (Sample.init []))) /\
    map snd points = map snd (aggregate Sample.three_events) /\
    map (@Some _) (map fst points) =
    map (to_point Sample.stod) (map fst (aggregate Sample.three_events)) /\
    sum_counts points =
    Z.of_nat (length (filter (parsable Sample.stod) Sample.three_events)).
Proof.
  split; [reflexivity|]. split; [reflexivity|].
  apply (proj2 (proj2 (aggregate_occurrences Sample.stod (Net:=Sample.Net)
                         Sample.three_events)));
    reflexivity.
Defined.

Lemma aggregation_order_independent_witness :
  Permutation Sample.three_events Sample.three_events_shuffled /\
  aggregate Sample.three_events = aggregate Sample.three_events_shuffled /\
  createGraphics_on Sample.stod Sample.three_events [] (Sample.init [])
  = createGraphics_on Sample.stod Sample.three_events_shuffled []
      (Sample.init []).
Proof.
  assert (H : Permutation Sample.three_events Sample.three_events_shuffled).
  { unfold Sample.three_events, Sample.three_events_shuffled.
    eapply perm_trans; [apply perm_skip, perm_swap | apply perm_swap]. }
  split; [exact H|].
  destruct (aggregation_order_independent Sample.stod _ _ []
              (Sample.init []) H) as (Hagg & Hpass & _).
  split; assumption.
Defined.

(** C5 (as stated) fails on a record without coordinates: the pass throws
    [invalid_argument], and the record that does convert is not emitted. *)
Lemma malformed_coordinate_counterexample :
  filter (parsable Sample.stod) Sample.mixed_events
  = [Sample.event "10.0" "20.0"] /\
  createGraphics_on Sample.stod Sample.mixed_events [] (Sample.loaded [])
  = Throws invalid_argument (mkState 4 1 [] [] [] []).
Proof. split; reflexivity. Qed.

Lemma malformed_coordinate_aborts_witness :
  existsb (fun record => negb (parsable Sample.stod record))
          Sample.mixed_events = true /\
  in_int (results (Sample.init [])
          + to_int (Z.of_nat (length Sample.mixed_events))) = true /\
  exists good bad rest points e,
    aggregate Sample.mixed_events = good ++ bad :: rest /\
    convert Sample.stod good = (points, None) /\
    convert Sample.stod [bad] = ([], Some e) /\
    createGraphics_on Sample.stod Sample.mixed_events [] (Sample.init [])
    = Throws e
        (set_activePoints (map fst points)
           (set_results
              (results (Sample.init [])
               + to_int (Z.of_nat (length Sample.mixed_events)))
              (Sample.init []))).
Proof.
  split; [reflexivity|]. split; [reflexivity|].
  apply (malformed_coordinate_aborts Sample.stod); reflexivity.
Defined.

(** C10 (as stated) fails on an empty answer: the pass leaves the two
    points of the earlier search in place, and the search that ran it pans
    to the first of them. *)
Lemma empty_answer_counterexample :
  createGraphics_on Sample.stod [] [] (Sample.loaded [])
  = Done [] (Sample.loaded []) /\
  activePoints (Sample.loaded []) <> [] /\
  searchHandler Sample.stod Sample.get_events "jazz" 0 (Sample.loaded [[]; []])
  = Done tt
      (mkState 2 1 (activePoints (Sample.loaded [])) [[]] []
         [Fetched (search_request "jazz" 0); Fetched None;
          SetViewpointAnimated (mkPoint 174.77%Q (-41.28)%Q);
          MapViewChanged]).
Proof. split; [reflexivity|]. split; [discriminate | reflexivity]. Qed.

Lemma createGraphics_fresh_list_witness :
  Sample.three_events <> [] /\
  createGraphics_on Sample.stod Sample.three_events [] (Sample.loaded [])
  = createGraphics_on Sample.stod Sample.three_events []
      (set_activePoints [] (Sample.loaded [])) /\
  in_int (results (Sample.loaded [])) = true /\
  createGraphics_on Sample.stod [] [] (Sample.loaded [])
  = Done [] (Sample.loaded []).
Proof.
  assert (Hne : Sample.three_events <> []) by discriminate.
  split; [exact Hne|]. split.
  - apply (proj1 (createGraphics_fresh_list Sample.stod Sample.three_events []
                    (Sample.loaded [])) Hne).
  - split; [reflexivity|].
    apply (proj2 (createGraphics_fresh_list Sample.stod Sample.three_events
                    [] (Sample.loaded []))); reflexivity.
Defined.

(** C3 on a fresh search: the counter stood at 2, the search for page 0
    brings three records, and the counter ends at 5. *)
Lemma searchHandler_results_witness :
  in_int (0 * 20) = true /\
  searched Sample.get_events "jazz" 0
    (Sample.loaded [Sample.three_events; Sample.three_events]) <> [] /\
  forallb (parsable Sample.stod)
    (searched Sample.get_events "jazz" 0
       (Sample.loaded [Sample.three_events; Sample.three_events])) = true /\
  exists s',
    searchHandler Sample.stod Sample.get_events "jazz" 0
      (Sample.loaded [Sample.three_events; Sample.three_events])
    = Done tt s' /\
    results s' = 5.
Proof.
  assert (Hne : searched Sample.get_events "jazz" 0
                  (Sample.loaded [Sample.three_events; Sample.three_events])
                <> []) by discriminate.
  split; [reflexivity|]. split; [exact Hne|]. split; [reflexivity|].
  apply (searchHandler_results Sample.stod Sample.get_events "jazz" 0
           (Sample.loaded [Sample.three_events; Sample.three_events])
           eq_refl Hne eq_refl eq_refl).
Defined.

(** The same search for page 1 forgets the 2 and ends at 3. *)
Example next_page_search_resets :
  exists s',
    searchHandler Sample.stod Sample.get_events "jazz" 1
      (Sample.loaded [Sample.three_events; Sample.three_events])
    = Done tt s' /\
    results s' = 3.
Proof. eexists. split; [vm_compute; reflexivity | reflexivity]. Qed.

(** C4 on a full first page: the probe asks for offset 1, not 20, and a
    second call follows it. *)
Lemma checkPage_next_witness :
  (Z.rem (results (mkState (double:=Q) 15 0 [] [] ([] : Sample.Net) [])) 20 <> 0 /\
   checkPage Sample.get_events true (mkState (double:=Q) 15 0 [] [] [] [])
   = Done (-1) (mkState 15 0 [] [] [] [])) /\
  (Z.rem (results (Sample.init [[]; Sample.three_events])) 20 = 0 /\
   checkPage Sample.get_events true
     (mkState (double:=Q) 20 0 [] [] [[]; Sample.three_events] [])
   = Done 1
       (mkState 20 0 [] [] []
          [Fetched (Some ([EmptyString; "|"; EmptyString; EmptyString;
                           EmptyString; EmptyString; "1"; "1"], false));
           Fetched None])).
Proof.
  split.
  - assert (H : Z.rem 15 20 <> 0) by discriminate.
    split; [exact H|].
    apply (proj1 (checkPage_next Sample.get_events
                    (mkState (double:=Q) 15 0 [] [] [] [])) H).
  - split; [reflexivity|].
    apply (proj2 (checkPage_next Sample.get_events
                    (mkState (double:=Q) 20 0 [] []
                       [[]; Sample.three_events] [])) eq_refl).
Defined.

(** C6 (as stated) fails on a click that carries an id of an earlier pass:
    outside the current list the read is undefined, and inside it the click
    pans to the point that now has the position. *)
Lemma stale_click_counterexample :
  identifyCompleted
    (Some [mkGraphic (mkPoint 20%Q 10%Q) PictureMarkerSymbol (Some 5)])
    (Sample.loaded [])
  = Undefined /\
  identifyCompleted
    (Some [mkGraphic (mkPoint 20%Q 10%Q) PictureMarkerSymbol (Some 1)])
    (Sample.loaded [])
  = Done tt (log (SetViewpointAnimated (mkPoint 172.63%Q (-43.53)%Q))
               (Sample.loaded [])).
Proof. split; reflexivity. Qed.

Lemma click_resolves_witness :
  0 <= property_id (mkGraphic (mkPoint 20%Q 10%Q) PictureMarkerSymbol (Some 1))
    < Z.of_nat (length (activePoints (Sample.loaded []))) /\
  exists point,
    nth_error (activePoints (Sample.loaded []))
      (Z.to_nat (property_id
                   (mkGraphic (mkPoint 20%Q 10%Q) PictureMarkerSymbol (Some 1))))
    = Some point /\
    identifyCompleted
      (Some [mkGraphic (mkPoint 20%Q 10%Q) PictureMarkerSymbol (Some 1)])
      (Sample.loaded [])
    = Done tt (log (SetViewpointAnimated point) (Sample.loaded [])).
Proof.
  assert (H : 0 <= property_id
                     (mkGraphic (mkPoint 20%Q 10%Q) PictureMarkerSymbol (Some 1))
              < Z.of_nat (length (activePoints (Sample.loaded [])))).
  { cbn. lia. }
  split; [exact H|].
  apply (click_resolves _ [] (Sample.loaded []) H).
Defined.

Lemma switchViews_cyclic_witness :
  1 <= Z.of_nat (length (activePoints (Sample.loaded []))) <= INT_MAX /\
  0 <= currIndex (Sample.loaded [])
    < Z.of_nat (length (activePoints (Sample.loaded []))) /\
  index_after (switchViews true (Sample.loaded [])) = Some 0 /\
  index_after (switchViews false (Sample.loaded [])) = Some 0 /\
  index_after (presses (length (activePoints (Sample.loaded []))) true
                 (Sample.loaded []))
  = Some (currIndex (Sample.loaded [])) /\
  index_after (bind (switchViews true) (fun _ => switchViews false)
                 (Sample.loaded []))
  = Some (currIndex (Sample.loaded [])).
Proof.
  assert (HN : 1 <= Z.of_nat (length (activePoints (Sample.loaded [])))
               <= INT_MAX) by (cbn; int_lia).
  assert (Hi : 0 <= currIndex (Sample.loaded [])
               < Z.of_nat (length (activePoints (Sample.loaded []))))
    by (cbn; lia).
  split; [exact HN|]. split; [exact Hi|].
  exact (switchViews_cyclic (Sample.loaded []) HN Hi).
Defined.

(** A list of one point: both buttons leave the cursor at 0. *)
Example single_point_wraps :
  index_after (switchViews true
                 (mkState 1 0 [mkPoint 20%Q 10%Q] [] ([] : Sample.Net) []))
  = Some 0 /\
  index_after (switchViews false
                 (mkState 1 0 [mkPoint 20%Q 10%Q] [] ([] : Sample.Net) []))
  = Some 0.
Proof. split; reflexivity. Qed.

(** C8 on the controller before any point is loaded. *)
Lemma switchViews_empty_witness :
  activePoints (Sample.init []) = [] /\
  switchViews true (Sample.init []) = Undefined /\
  switchViews false (Sample.init []) = Undefined.
Proof.
  split; [reflexivity|].
  split; apply (switchViews_empty _ (Sample.init [])); reflexivity.
Defined.

(** C9 (as stated) fails on a search made with the cursor on the second
    point: the search pans to the first point of the new list and leaves
    the cursor at 1. *)
Lemma cursor_reset_counterexample :
  exists s',
    searchHandler Sample.stod Sample.get_events "jazz" 0
      (Sample.loaded [Sample.three_events; Sample.three_events])
    = Done tt s' /\
    activePoints s' = [mkPoint 20%Q 10%Q; mkPoint 40%Q 30%Q] /\
    currIndex s' = 1 /\ currIndex s' <> 0.
Proof.
  eexists. split; [vm_compute; reflexivity|]. split; [reflexivity|].
  split; [reflexivity | discriminate].
Qed.

Lemma searchHandler_focuses_first_witness :
  in_int (0 * 20) = true /\
  searched Sample.get_events "jazz" 0
    (Sample.loaded [Sample.three_events; Sample.three_events]) <> [] /\
  forallb (parsable Sample.stod)
    (searched Sample.get_events "jazz" 0
       (Sample.loaded [Sample.three_events; Sample.three_events])) = true /\
  exists s' first others,
    searchHandler Sample.stod Sample.get_events "jazz" 0
      (Sample.loaded [Sample.three_events; Sample.three_events])
    = Done tt s' /\
    activePoints s' = first :: others /\
    map (@Some _) (activePoints s') =
    map (to_point Sample.stod)
        (map fst (aggregate
                    (searched Sample.get_events "jazz" 0
                       (Sample.loaded [Sample.three_events;
                                       Sample.three_events])))) /\
    trace s' =
    trace (Sample.loaded [Sample.three_events; Sample.three_events])
    ++ [Fetched (search_request "jazz" 0); Fetched None;
        SetViewpointAnimated first; MapViewChanged] /\
    currIndex s' =
    currIndex (Sample.loaded [Sample.three_events; Sample.three_events]).
Proof.
  assert (Hne : searched Sample.get_events "jazz" 0
                  (Sample.loaded [Sample.three_events; Sample.three_events])
                <> []) by discriminate.
  split; [reflexivity|]. split; [exact Hne|]. split; [reflexivity|].
  apply (searchHandler_focuses_first Sample.stod Sample.get_events "jazz" 0
           (Sample.loaded [Sample.three_events; Sample.three_events])
           eq_refl Hne eq_refl eq_refl).
Defined.

(** * Further properties of the counting loop *)

(** X2.  Counting is additive: the counter of a key over two answers put
    end to end is the sum of its counters over each. *)
Theorem count_points_app (eventarr eventarr' : list RawEventRecord) k :
  occurrences_at (count_points (eventarr ++ eventarr')) k =
  occurrences_at (count_points eventarr) k
  + occurrences_at (count_points eventarr') k.
Proof.
  unfold occurrences_at. rewrite !find_count_points. unfold records_at.
  rewrite map_app, count_occ_app.
  destruct (count_occ key_eq_dec (map location_of eventarr) k),
           (count_occ key_eq_dec (map location_of eventarr') k);
    cbn [Nat.add]; lia.
Qed.

Lemma pair_lt_irrefl k : ~ pair_lt k k.
Proof.
  intros [H|[_ H]]; apply String_as_OT.lt_not_eq in H; apply H; reflexivity.
Qed.

Lemma aggregate_NoDup eventarr : NoDup (map fst (aggregate eventarr)).
Proof.
  pose proof (aggregate_sorted eventarr) as Hs.
  induction Hs as [|k l _ IH Hall]; constructor; [|assumption].
  intros Hin. rewrite Forall_forall in Hall.
  apply (pair_lt_irrefl k), (Hall k Hin).
Qed.

Lemma aggregate_key_iff eventarr k :
  In k (map fst (aggregate eventarr)) <-> In k (map location_of eventarr).
Proof.
  rewrite in_map_iff. split.
  - intros ([k' n] & <- & Hin).
    destruct (aggregate_keys _ _ Hin) as (record & Hrec & <-).
    apply in_map. assumption.
  - intros Hin. apply in_map_iff in Hin. destruct Hin as (record & <- & Hin).
    destruct (aggregate_covers _ _ Hin) as [n Hn].
    exists (location_of record, n). auto.
Qed.

(** The keys of the map are the distinct keys of the records. *)
Lemma aggregate_distinct eventarr :
  Permutation (map fst (aggregate eventarr))
              (nodup key_eq_dec (map location_of eventarr)).
Proof.
  apply NoDup_Permutation.
  - apply aggregate_NoDup.
  - apply NoDup_nodup.
  - intros k. rewrite nodup_In. apply aggregate_key_iff.
Qed.

Lemma aggregate_length eventarr :
  length (aggregate eventarr)
  = length (nodup key_eq_dec (map location_of eventarr)) /\
  (length (aggregate eventarr) <= length eventarr)%nat.
Proof.
  assert (H : length (aggregate eventarr)
              = length (nodup key_eq_dec (map location_of eventarr))).
  { rewrite <- (length_map fst). apply Permutation_length, aggregate_distinct. }
  split; [assumption|]. rewrite H, <- (length_map location_of eventarr).
  apply NoDup_incl_length; [apply NoDup_nodup|].
  intros k Hk. apply nodup_In in Hk. assumption.
Qed.

Lemma aggregate_counts_positive eventarr :
  Forall (fun n => 0 < n) (map snd (aggregate eventarr)).
Proof.
  apply Forall_forall. intros n Hin. apply in_map_iff in Hin.
  destruct Hin as ([k n'] & <- & Hin). apply In_aggregate in Hin. tauto.
Qed.

(** * Further properties of the aggregation pass *)

Section PassProperties.

Context {double : Type} (stod : string -> double + exn).
Context {Net : Type}.
Context (get_events : option Request -> Net -> list RawEventRecord * Net).

Local Abbreviation State := (State double Net).

Lemma marker_ids_graphics_of (points : list (Point double * Z)) : forall index,
  marker_ids (graphics_of index points)
  = map (fun k => index + Z.of_nat k) (seq 0 (length points)).
Proof.
  induction points as [|[point n] rest IH]; intros index; [reflexivity|].
  cbn [graphics_of length seq map]. unfold marker_ids in *.
  cbn [flat_map id app]. rewrite flat_map_app, IH.
  rewrite <- seq_shift, map_map. f_equal; [f_equal; lia|].
  destruct (1 <? n); cbn [flat_map id app];
    apply map_ext; intros k; lia.
Qed.

Lemma labels_graphics_of (points : list (Point double * Z)) : forall index,
  labels (graphics_of index points)
  = filter (fun n => 1 <? n) (map snd points).
Proof.
  induction points as [|[point n] rest IH]; intros index; [reflexivity|].
  cbn [graphics_of map snd filter]. unfold labels in *.
  cbn [flat_map symbol app]. rewrite flat_map_app, IH.
  destruct (1 <? n); reflexivity.
Qed.

Lemma duplicates_counts (locations : list (Key.t * Z)) :
  Forall (fun n => 0 < n) (map snd locations) ->
  duplicates (filter (fun n => 1 <? n) (map snd locations))
  = sum_occurrences locations - Z.of_nat (length locations).
Proof.
  induction locations as [|[k n] rest IH]; intros Hpos; [reflexivity|].
  cbn [map snd] in Hpos. inversion Hpos as [|? ? Hn Hrest]; subst.
  cbn [map snd filter length]. unfold sum_occurrences in *.
  cbn [fold_right snd].
  destruct (Z.ltb_spec 1 n); unfold duplicates in *; cbn [fold_right];
    rewrite (IH Hrest); lia.
Qed.

(** A pass over a non-empty answer that converts throughout returns. *)
Lemma pass_completes eventarr overlay (s : State) :
  eventarr <> [] ->
  forallb (parsable stod) eventarr = true ->
  in_int (results s + to_int (Z.of_nat (length eventarr))) = true ->
  exists points,
    map snd points = map snd (aggregate eventarr) /\
    createGraphics_on stod eventarr overlay s
    = Done (overlay ++ graphics_of 0 points)
           (set_activePoints (map fst points)
              (set_results
                 (results s + to_int (Z.of_nat (length eventarr))) s)).
Proof.
  intros Hne Hall Hfit.
  destruct (convert_all stod _ (parsable_all stod _ Hall)) as [points Hconv].
  exists points. split; [apply (convert_counters stod _ _ Hconv)|].
  rewrite createGraphics_on_nonempty by assumption.
  cbv zeta. rewrite Hfit, Hconv. reflexivity.
Qed.


(** X4.  A pass over a non-empty answer that converts throughout leaves one
    point for each distinct pair of coordinate strings of the answer, hence
    never more points than records. *)
Theorem pass_point_count eventarr overlay (s : State) :
  eventarr <> [] ->
  forallb (parsable stod) eventarr = true ->
  in_int (results s + to_int (Z.of_nat (length eventarr))) = true ->
  exists overlay' s',
    createGraphics_on stod eventarr overlay s = Done overlay' s' /\
    length (activePoints s')
    = length (nodup key_eq_dec (map location_of eventarr)) /\
    (length (activePoints s') <= length eventarr)%nat.
Proof.
  intros Hne Hall Hfit.
  destruct (pass_completes eventarr overlay s Hne Hall Hfit)
    as (points & Hsnd & ->).
  eexists. eexists. split; [reflexivity|].
  cbn [activePoints set_activePoints].
  assert (Hlen : length (map fst points) = length (aggregate eventarr)).
  { rewrite length_map, <- (length_map snd points), Hsnd. apply length_map. }
  rewrite Hlen. apply aggregate_length.
Qed.


(** X6.  The labels of a pass that converts throughout show, in key order,
    the counters that exceed 1, and no other number; what they show beyond
    1 adds up to the records of the answer that share their coordinates
    with an earlier one. *)
Theorem pass_labels eventarr overlay (s : State) :
  forallb (parsable stod) eventarr = true ->
  in_int (results s + to_int (Z.of_nat (length eventarr))) = true ->
  exists overlay' s',
    createGraphics_on stod eventarr overlay s = Done overlay' s' /\
    labels overlay'
    = labels overlay
      ++ filter (fun n => 1 <? n) (map snd (aggregate eventarr)) /\
    duplicates (filter (fun n => 1 <? n) (map snd (aggregate eventarr)))
    = Z.of_nat (length eventarr)
      - Z.of_nat (length (nodup key_eq_dec (map location_of eventarr))).
Proof.
  intros Hall Hfit.
  assert (Hdup :
    duplicates (filter (fun n => 1 <? n) (map snd (aggregate eventarr)))
    = Z.of_nat (length eventarr)
      - Z.of_nat (length (nodup key_eq_dec (map location_of eventarr)))).
  { rewrite duplicates_counts by apply aggregate_counts_positive.
    rewrite sum_occurrences_aggregate.
    destruct (aggregate_length eventarr) as [-> _]. reflexivity. }
  destruct eventarr as [|record rest].
  - rewrite createGraphics_on_nil.
    change (to_int (Z.of_nat (length (@nil RawEventRecord)))) with 0 in Hfit.
    rewrite Z.add_0_r in Hfit. rewrite Hfit.
    eexists. eexists. split; [reflexivity|]. split; [|assumption].
    rewrite aggregate_nil. cbn [map filter]. symmetry. apply app_nil_r.
  - destruct (pass_completes (record :: rest) overlay s
                ltac:(discriminate) Hall Hfit) as (points & Hsnd & ->).
    eexists. eexists. split; [reflexivity|]. split; [|assumption].
    unfold labels at 1. rewrite flat_map_app. fold (labels overlay).
    fold (labels (graphics_of 0 points)).
    rewrite labels_graphics_of, Hsnd. reflexivity.
Qed.

Lemma lt_empty_string a : ~ String_as_OT.lt a EmptyString.
Proof. intros H. inversion H. Qed.

(** In a sorted list of keys that holds a key with an empty first string,
    the first key has one. *)
Lemma sorted_head_empty (keys : list Key.t) k :
  StronglySorted pair_lt keys -> In k keys -> fst k = EmptyString ->
  exists first others, keys = first :: others /\ fst first = EmptyString.
Proof.
  intros Hs Hin Hk. destruct Hs as [|first others _ Hall]; [contradiction|].
  exists first, others. split; [reflexivity|].
  destruct Hin as [->|Hin]; [assumption|].
  rewrite Forall_forall in Hall. destruct (Hall k Hin) as [Hlt|[Heq _]].
  - rewrite Hk in Hlt. exfalso. apply (lt_empty_string _ Hlt).
  - congruence.
Qed.

(** X7.  Where [std::stod] rejects the empty string, a record without a
    [lat] field aborts the pass at its first conversion: the key of such a
    record reads as the empty string, which comes before every other, so
    the exception leaves with the list of points cleared and no point
    appended, whatever else the answer holds. *)
Theorem missing_latitude_aborts_first
    (eventarr : list RawEventRecord) overlay (s : State) e :
  stod EmptyString = inr e ->
  (exists record : RawEventRecord,
     In record eventarr /\ Fields.find "lat" record = None) ->
  in_int (results s + to_int (Z.of_nat (length eventarr))) = true ->
  createGraphics_on stod eventarr overlay s
  = Throws e
      (set_activePoints []
         (set_results (results s + to_int (Z.of_nat (length eventarr))) s)).
Proof.
  intros Hstod (record & Hin & Hlat) Hfit.
  assert (Hne : eventarr <> []) by (intros ->; contradiction).
  assert (Hkey : fst (location_of record) = EmptyString).
  { unfold location_of, field. cbn [fst]. rewrite Hlat. reflexivity. }
  assert (Hmem : In (location_of record) (map fst (aggregate eventarr))).
  { apply aggregate_key_iff, in_map. assumption. }
  destruct (sorted_head_empty _ _ (aggregate_sorted eventarr) Hmem Hkey)
    as (first & others & Hkeys & Hfirst).
  rewrite createGraphics_on_nonempty by assumption. cbv zeta. rewrite Hfit.
  destruct (aggregate eventarr) as [|[k n] rest]; [discriminate|].
  cbn [map fst] in Hkeys. injection Hkeys as -> _.
  cbn [convert]. rewrite Hfirst, Hstod. reflexivity.
Qed.

End PassProperties.

(** * Further properties of the controller *)

Section SessionProperties.

Context {double : Type} (stod : string -> double + exn).
Context {Net : Type}.
Context (get_events : option Request -> Net -> list RawEventRecord * Net).

Local Abbreviation State := (State double Net).

(** X1.  [checkPage(false)] calls nothing and changes nothing: it answers
    from the counter alone, with the page before the current one when the
    counter has reached 40 and with -1 below that. *)
Theorem checkPage_previous (s : State) :
  checkPage get_events false s
  = Done (if 40 <=? results s then Z.quot (results s) 20 - 2 else -1) s.
Proof.
  unfold checkPage, bind, read.
  assert (H : (0 <? Z.quot (results s) 20 - 1) = (40 <=? results s)).
  { destruct (Z.leb_spec 40 (results s)) as [Hge|Hlt].
    - apply Z.ltb_lt.
      assert (2 <= Z.quot (results s) 20)
        by (apply Z.quot_le_lower_bound; lia).
      lia.
    - apply Z.ltb_ge.
      destruct (Z.le_gt_cases 0 (results s)) as [Hpos|Hneg].
      + assert (Z.quot (results s) 20 < 2)
          by (apply Z.quot_lt_upper_bound; lia).
        lia.
      + assert (Hquot : Z.quot (results s) 20 = - Z.quot (- results s) 20).
        { rewrite Z.quot_opp_l by lia. lia. }
        assert (0 <= Z.quot (- results s) 20) by (apply Z.quot_pos; lia).
        lia. }
  rewrite H. destruct (40 <=? results s); unfold ret; f_equal; lia.
Qed.

Lemma before_pass_fields text page (s : State) :
  results (before_pass get_events text page s)
  = (if 0 <? page then 0 else results s) /\
  currIndex (before_pass get_events text page s) = currIndex s /\
  activePoints (before_pass get_events text page s) = activePoints s /\
  graphicsOverlays (before_pass get_events text page s) = [] /\
  net (before_pass get_events text page s)
  = snd (get_events None (net_after_request get_events text page s)) /\
  trace (before_pass get_events text page s)
  = trace s ++ [Fetched (search_request text page); Fetched None].
Proof.
  unfold before_pass. destruct (0 <? page); repeat split;
    cbn [trace log set_net set_graphicsOverlays set_results];
    rewrite <- app_assoc; reflexivity.
Qed.

(** The pass leaves the cursor, the overlays of the view, the event source
    and the trace alone. *)
Lemma createGraphics_on_frame eventarr overlay (s : State) :
  match createGraphics_on stod eventarr overlay s with
  | Done _ s' | Throws _ s' =>
      currIndex s' = currIndex s /\
      graphicsOverlays s' = graphicsOverlays s /\
      net s' = net s /\ trace s' = trace s
  | Undefined => True
  end.
Proof.
  destruct eventarr as [|record rest].
  - rewrite createGraphics_on_nil. destruct (in_int _); repeat split.
  - rewrite createGraphics_on_nonempty by discriminate. cbv zeta.
    destruct (in_int _); [|exact I].
    destruct (convert stod (aggregate (record :: rest))) as [points [e|]];
      repeat split.
Qed.

(** X8.  What a search leaves behind.  When [searchHandler] returns, the
    view holds exactly one overlay, the last viewpoint set is the first
    point of the list, the change signal follows it, and the cursor is
    where it was.  When it throws, the view holds no overlay at all, no
    viewpoint was set and no signal sent.  It is undefined only when an
    [int] overflows or when an empty answer meets an empty list. *)
Theorem searchHandler_outcomes text page (s : State) :
  match searchHandler stod get_events text page s with
  | Done _ s' =>
      exists overlay first,
        graphicsOverlays s' = [overlay] /\
        hd_error (activePoints s') = Some first /\
        trace s' = trace s ++ [Fetched (search_request text page);
                               Fetched None;
                               SetViewpointAnimated first; MapViewChanged] /\
        currIndex s' = currIndex s
  | Throws _ s' =>
      graphicsOverlays s' = [] /\
      trace s' = trace s ++ [Fetched (search_request text page);
                             Fetched None] /\
      currIndex s' = currIndex s
  | Undefined =>
      in_int (page * 20) = false \/
      in_int ((if 0 <? page then 0 else results s)
              + to_int (Z.of_nat (length (searched get_events text page s))))
      = false \/
      (searched get_events text page s = [] /\ activePoints s = [])
  end.
Proof.
  destruct (in_int (page * 20)) eqn:Hfit.
  2: { unfold searchHandler, bind at 1, int_arith. rewrite Hfit.
       left. reflexivity. }
  rewrite (searchHandler_closed stod get_events text page s Hfit).
  destruct (before_pass_fields text page s)
    as (Hres & Hidx & Hact & Hov & _ & Htr).
  pose proof (createGraphics_on_frame (searched get_events text page s) []
                (before_pass get_events text page s)) as Hframe.
  destruct (searched get_events text page s) as [|record rest] eqn:Hans.
  - rewrite createGraphics_on_nil in *. rewrite Hres in *.
    change (to_int (Z.of_nat (length (@nil RawEventRecord)))) with 0.
    rewrite Z.add_0_r.
    destruct (in_int (if 0 <? page then 0 else results s));
      [|right; left; reflexivity].
    rewrite Hact. destruct (activePoints s) as [|first others] eqn:Hlist.
    + right. right. split; reflexivity.
    + exists [], first.
      cbn [graphicsOverlays trace currIndex activePoints log
           set_graphicsOverlays].
      rewrite Hov, Hact, ?Hlist, Htr, Hidx, <- !app_assoc. repeat split.
  - rewrite createGraphics_on_nonempty in * by discriminate.
    cbv zeta in *. rewrite Hres in *.
    match goal with
    | |- context [if in_int ?z then _ else _] => destruct (in_int z)
    end; [|right; left; reflexivity].
    destruct (convert stod (aggregate (record :: rest)))
      as [points [e|]] eqn:Hconv.
    + destruct Hframe as (Hi & Ho & _ & Ht).
      rewrite Ho, Ht, Hi, Hov, Htr, Hidx. repeat split.
    + destruct Hframe as (Hi & Ho & _ & Ht).
      cbn [activePoints set_activePoints].
      destruct (map fst points) as [|first others] eqn:Hpoints.
      { exfalso. apply (aggregate_not_nil (record :: rest));
          [discriminate|].
        destruct (convert_counters stod _ _ Hconv) as [Hsnd _].
        destruct points; [|discriminate].
        destruct (aggregate (record :: rest)); [reflexivity|discriminate]. }
      exists ([] ++ graphics_of 0 points), first.
      cbn [graphicsOverlays trace currIndex activePoints log
           set_graphicsOverlays] in *.
      rewrite Ho, Ht, Hi, Hov, Htr, Hidx, ?Hpoints, <- !app_assoc.
      repeat split.
Qed.

(** X9.  A search whose answer is empty keeps the list of points: it shows
    one empty overlay and pans to the first point of the list it found,
    and on an empty list it reads [activePoints[0]] outside the vector. *)
Theorem searchHandler_empty_answer text page (s : State) :
  in_int (page * 20) = true ->
  searched get_events text page s = [] ->
  in_int (if 0 <? page then 0 else results s) = true ->
  searchHandler stod get_events text page s
  = match activePoints s with
    | [] => Undefined
    | first :: _ =>
        Done tt
          (mkState (if 0 <? page then 0 else results s) (currIndex s)
             (activePoints s) [[]]
             (snd (get_events None (net_after_request get_events text page s)))
             (trace s ++ [Fetched (search_request text page); Fetched None;
                          SetViewpointAnimated first; MapViewChanged]))
    end.
Proof.
  intros Hfit Hans Hres.
  rewrite (searchHandler_closed stod get_events text page s Hfit), Hans.
  rewrite createGraphics_on_nil.
  destruct (before_pass_fields text page s)
    as (Hr & Hidx & Hact & Hov & Hnet & Htr).
  rewrite Hr, Hres, Hact.
  destruct (activePoints s) as [|first others] eqn:Hlist; [reflexivity|].
  f_equal. apply State_ext;
    cbn [results currIndex activePoints graphicsOverlays net trace log
         set_graphicsOverlays];
    rewrite ?Hov, ?Htr, <- ?app_assoc; auto.
Qed.

End SessionProperties.

(** * Clicks and steps after a search *)

Section Composition.

Context {double : Type} (stod : string -> double + exn).
Context {Net : Type}.
Context (get_events : option Request -> Net -> list RawEventRecord * Net).

Local Abbreviation State := (State double Net).

Lemma vector_at_nth (v : list (Point double)) i point (s : State) :
  0 <= i -> nth_error v (Z.to_nat i) = Some point ->
  vector_at v i s = Done point s.
Proof.
  intros Hi Hnth. unfold vector_at.
  assert (Hlt : (Z.to_nat i < length v)%nat)
    by (apply nth_error_Some; congruence).
  assert (Hrange : (0 <=? i) && (i <? Z.of_nat (length v)) = true).
  { apply andb_true_iff. split; [apply Z.leb_le | apply Z.ltb_lt]; lia. }
  rewrite Hrange, Hnth. reflexivity.
Qed.

(** Every graphic of a pass stands on a point of the pass, and a marker
    stands on the point its id counts. *)
Lemma graphics_of_geometry (points : list (Point double * Z)) :
  forall index g,
    In g (graphics_of index points) ->
    In (geometry g) (map fst points) /\
    forall i, id g = Some i ->
      index <= i /\
      nth_error (map fst points) (Z.to_nat (i - index)) = Some (geometry g).
Proof.
  induction points as [|[point n] rest IH]; intros index g Hin;
    [contradiction|].
  cbn [graphics_of] in Hin. cbn [map fst].
  destruct Hin as [<-|Hin].
  { split; [left; reflexivity|]. cbn [id geometry]. intros i [= <-].
    split; [lia|]. rewrite Z.sub_diag. reflexivity. }
  apply in_app_or in Hin. destruct Hin as [Hin|Hin].
  { assert (Hg : geometry g = point /\ id g = None).
    { destruct (1 <? n); [|contradiction].
      destruct Hin as [<-|[<-|[]]]; split; reflexivity. }
    destruct Hg as [Hgeo Hid].
    split; [left; symmetry; assumption|]. intros i Hi. congruence. }
  destruct (IH (index + 1) g Hin) as [Hgeo Hid].
  split; [right; assumption|]. intros i Hi.
  destruct (Hid i Hi) as [Hle Hnth]. split; [lia|].
  replace (Z.to_nat (i - index)) with (S (Z.to_nat (i - (index + 1))))
    by lia.
  exact Hnth.
Qed.

(** X10.  After a search that returns on a non-empty answer, a click
    identified on any marker of the overlay on display pans to the
    coordinates of that very marker. *)
Theorem search_then_click_marker text page (s : State) :
  in_int (page * 20) = true ->
  searched get_events text page s <> [] ->
  forallb (parsable stod) (searched get_events text page s) = true ->
  in_int ((if 0 <? page then 0 else results s)
          + to_int (Z.of_nat (length (searched get_events text page s)))) = true ->
  exists s' overlay,
    searchHandler stod get_events text page s = Done tt s' /\
    graphicsOverlays s' = [overlay] /\
    forall g others i,
      In g overlay -> id g = Some i ->
      identifyCompleted (Some (g :: others)) s'
      = Done tt (log (SetViewpointAnimated (geometry g)) s').
Proof.
  intros Hfit Hne Hall Hsum.
  destruct (searchHandler_completes stod get_events text page s
              Hfit Hne Hall Hsum)
    as (first & others & points & _ & Hpoints & ->).
  eexists. exists (graphics_of 0 points). split; [reflexivity|].
  split; [reflexivity|]. intros g rest i Hin Hid.
  destruct (graphics_of_geometry points 0 g Hin) as [_ Hmark].
  destruct (Hmark i Hid) as [Hle Hnth]. rewrite Z.sub_0_r, Hpoints in Hnth.
  unfold identifyCompleted, bind, read, property_id. rewrite Hid.
  cbn [activePoints]. rewrite (vector_at_nth _ _ _ _ Hle Hnth). reflexivity.
Qed.

(** X14.  After such a search, a click identified on a circle or a label
    (the graphics without an id) pans to the first point of the list,
    whichever point the graphic stands on. *)
Theorem search_then_click_label text page (s : State) :
  in_int (page * 20) = true ->
  searched get_events text page s <> [] ->
  forallb (parsable stod) (searched get_events text page s) = true ->
  in_int ((if 0 <? page then 0 else results s)
          + to_int (Z.of_nat (length (searched get_events text page s)))) = true ->
  exists s' overlay first,
    searchHandler stod get_events text page s = Done tt s' /\
    graphicsOverlays s' = [overlay] /\
    hd_error (activePoints s') = Some first /\
    forall g others,
      In g overlay -> id g = None ->
      In (geometry g) (activePoints s') /\
      identifyCompleted (Some (g :: others)) s'
      = Done tt (log (SetViewpointAnimated first) s').
Proof.
  intros Hfit Hne Hall Hsum.
  destruct (searchHandler_completes stod get_events text page s
              Hfit Hne Hall Hsum)
    as (first & others & points & _ & Hpoints & ->).
  eexists. exists (graphics_of 0 points), first. split; [reflexivity|].
  split; [reflexivity|]. split; [reflexivity|]. intros g rest Hin Hid.
  destruct (graphics_of_geometry points 0 g Hin) as [Hgeo _].
  rewrite Hpoints in Hgeo. split; [exact Hgeo|].
  unfold identifyCompleted, bind, read, property_id. rewrite Hid.
  reflexivity.
Qed.

(** [switchViews] on a non-empty list, wherever the cursor stands. *)
Lemma switchViews_defined (next : bool) (s : State) :
  1 <= Z.of_nat (length (activePoints s)) <= INT_MAX ->
  INT_MIN < currIndex s < INT_MAX ->
  exists j point,
    0 <= j < Z.of_nat (length (activePoints s)) /\
    j = (let moved := currIndex s + (if next then 1 else -1) in
         if Z.of_nat (length (activePoints s)) - 1 <? moved then 0
         else if moved <? 0 then Z.of_nat (length (activePoints s)) - 1
         else moved) /\
    nth_error (activePoints s) (Z.to_nat j) = Some point /\
    switchViews next s
    = Done tt (log MapViewChanged
                 (set_currIndex j (log (SetViewpointAnimated point) s))).
Proof.
  intros HN Hi. cbv zeta.
  set (N := Z.of_nat (length (activePoints s))) in *.
  set (moved := currIndex s + (if next then 1 else -1)).
  assert (Hmoved : INT_MIN <= moved <= INT_MAX)
    by (unfold moved; destruct next; lia).
  set (j := if N - 1 <? moved then 0
            else if moved <? 0 then N - 1 else moved).
  assert (Hj : 0 <= j < N).
  { unfold j. destruct (Z.ltb_spec (N - 1) moved); [lia|].
    destruct (Z.ltb_spec moved 0); lia. }
  destruct (nth_error (activePoints s) (Z.to_nat j)) as [point|] eqn:Hnth.
  2: { apply nth_error_None in Hnth. unfold N in Hj. lia. }
  exists j, point. split; [assumption|]. split; [reflexivity|].
  split; [assumption|].
  unfold switchViews, bind, read, int_arith. fold moved.
  rewrite (in_int_intro _ Hmoved). unfold ret at 1. fold N.
  rewrite (to_int_small N) by lia.
  rewrite in_int_intro by int_lia. unfold ret at 1. fold j.
  rewrite (vector_at_nth _ _ _ _ (proj1 Hj) Hnth). reflexivity.
Qed.

(** X11.  On a list of at least one point [switchViews] never reads outside
    the list, wherever the cursor stands: it returns with the cursor inside
    the list (at 0 when the moved cursor is past the end, at the last index
    when it is negative), having panned to the point at the new cursor and
    sent the change signal, and leaves the counter, the list and the
    overlays as they were. *)
Theorem switchViews_any_cursor (next : bool) (s : State) :
  1 <= Z.of_nat (length (activePoints s)) <= INT_MAX ->
  INT_MIN < currIndex s < INT_MAX ->
  exists s' point,
    switchViews next s = Done tt s' /\
    0 <= currIndex s' < Z.of_nat (length (activePoints s')) /\
    nth_error (activePoints s') (Z.to_nat (currIndex s')) = Some point /\
    trace s' = trace s ++ [SetViewpointAnimated point; MapViewChanged] /\
    (Z.of_nat (length (activePoints s)) - 1
     < currIndex s + (if next then 1 else -1) -> currIndex s' = 0) /\
    (currIndex s + (if next then 1 else -1) < 0 ->
     currIndex s' = Z.of_nat (length (activePoints s)) - 1) /\
    results s' = results s /\ activePoints s' = activePoints s /\
    graphicsOverlays s' = graphicsOverlays s.
Proof.
  intros HN Hi.
  destruct (switchViews_defined next s HN Hi)
    as (j & point & Hj & Hsel & Hnth & ->).
  eexists. exists point. split; [reflexivity|].
  cbn [currIndex activePoints trace results graphicsOverlays log
       set_currIndex].
  rewrite <- app_assoc. cbv zeta in Hsel.
  repeat split; try assumption; try lia.
  - intros Hpast. apply Z.ltb_lt in Hpast. rewrite Hpast in Hsel. exact Hsel.
  - intros Hneg. rewrite Hsel.
    destruct (Z.ltb_spec (Z.of_nat (length (activePoints s)) - 1)
                (currIndex s + (if next then 1 else -1))); [lia|].
    apply Z.ltb_lt in Hneg. rewrite Hneg. reflexivity.
Qed.

(** X12.  With the cursor inside a list of [N] points, [count] presses of
    one button move it by [count] modulo [N]: forward for [next], backward
    for [previous]. *)
Theorem presses_closed_form count (next : bool) : forall (s : State),
  1 <= Z.of_nat (length (activePoints s)) <= INT_MAX ->
  0 <= currIndex s < Z.of_nat (length (activePoints s)) ->
  index_after (presses count next s)
  = Some ((currIndex s
           + (if next then Z.of_nat count else - Z.of_nat count))
          mod Z.of_nat (length (activePoints s))).
Proof.
  induction count as [|count IH]; intros s HN Hi.
  - cbn [presses index_after ret Z.of_nat].
    replace (currIndex s + (if next then 0 else - 0)) with (currIndex s)
      by (destruct next; lia).
    rewrite Z.mod_small; auto.
  - cbn [presses]. unfold bind.
    destruct (switchViews_step next s HN Hi) as (point & _ & ->).
    rewrite IH; cbn [activePoints currIndex log set_currIndex];
      try assumption.
    + f_equal. rewrite Zplus_mod_idemp_l. f_equal. destruct next; lia.
    + apply Z.mod_pos_bound. lia.
Qed.

(** X13.  A press of either button after a search that returns on a
    non-empty answer is defined and leaves the cursor inside the new list,
    although the search did not move the cursor and the new list may be
    shorter than the index it holds. *)
Theorem search_then_step text page (next : bool) (s : State) :
  in_int (page * 20) = true ->
  searched get_events text page s <> [] ->
  forallb (parsable stod) (searched get_events text page s) = true ->
  in_int ((if 0 <? page then 0 else results s)
          + to_int (Z.of_nat (length (searched get_events text page s)))) = true ->
  Z.of_nat (length (searched get_events text page s)) <= INT_MAX ->
  INT_MIN < currIndex s < INT_MAX ->
  exists s'',
    bind (searchHandler stod get_events text page)
         (fun _ => switchViews next) s = Done tt s'' /\
    0 <= currIndex s'' < Z.of_nat (length (activePoints s'')) /\
    length (activePoints s'')
    = length (aggregate (searched get_events text page s)).
Proof.
  intros Hfit Hne Hall Hsum Hlen Hi. unfold bind.
  destruct (searchHandler_completes stod get_events text page s
              Hfit Hne Hall Hsum)
    as (first & others & points & Hconv & Hpoints & ->).
  assert (Hsize : length (first :: others)
                  = length (aggregate (searched get_events text page s))).
  { rewrite <- Hpoints, length_map.
    destruct (convert_counters stod _ _ Hconv) as [Hsnd _].
    rewrite <- (length_map snd points), Hsnd. apply length_map. }
  match goal with
  | |- context [switchViews next ?s1] =>
      destruct (switchViews_defined next s1) as (j & point & Hj & _ & _ & ->)
  end.
  - cbn [activePoints].
    destruct (aggregate_length (searched get_events text page s)) as [_ Hle].
    cbn [length] in *. lia.
  - exact Hi.
  - eexists. split; [reflexivity|].
    cbn [currIndex activePoints log set_currIndex] in *. split; assumption.
Qed.

End Composition.

(** * The further properties on the sample environment *)

Lemma pass_point_count_witness :
  Sample.three_events <> [] /\
  forallb (parsable Sample.stod) Sample.three_events = true /\
  in_int (results (Sample.loaded [])
          + to_int (Z.of_nat (length Sample.three_events))) = true /\
  exists overlay' s',
    createGraphics_on Sample.stod Sample.three_events [] (Sample.loaded [])
    = Done overlay' s' /\
    length (activePoints s')
    = length (nodup key_eq_dec (map location_of Sample.three_events)) /\
    (length (activePoints s') <= length Sample.three_events)%nat.
Proof.
  assert (Hne : Sample.three_events <> []) by discriminate.
  split; [exact Hne|]. split; [reflexivity|]. split; [reflexivity|].
  exact (pass_point_count Sample.stod Sample.three_events []
           (Sample.loaded []) Hne eq_refl eq_refl).
Defined.


Lemma pass_labels_witness :
  forallb (parsable Sample.stod) Sample.three_events = true /\
  in_int (results (Sample.loaded [])
          + to_int (Z.of_nat (length Sample.three_events))) = true /\
  exists overlay' s',
    createGraphics_on Sample.stod Sample.three_events [] (Sample.loaded [])
    = Done overlay' s' /\
    labels overlay'
    = labels (double:=Q) []
      ++ filter (fun n => 1 <? n) (map snd (aggregate Sample.three_events)) /\
    duplicates (filter (fun n => 1 <? n)
                       (map snd (aggregate Sample.three_events)))
    = Z.of_nat (length Sample.three_events)
      - Z.of_nat (length (nodup key_eq_dec
                            (map location_of Sample.three_events))).
Proof.
  split; [reflexivity|]. split; [reflexivity|].
  exact (pass_labels Sample.stod Sample.three_events []
           (Sample.loaded []) eq_refl eq_refl).
Defined.

Lemma missing_latitude_aborts_first_witness :
  Sample.stod EmptyString = inr invalid_argument /\
  (exists record : RawEventRecord,
     In record Sample.mixed_events /\ Fields.find "lat" record = None) /\
  in_int (results (Sample.loaded [])
          + to_int (Z.of_nat (length Sample.mixed_events))) = true /\
  createGraphics_on Sample.stod Sample.mixed_events [] (Sample.loaded [])
  = Throws invalid_argument
      (set_activePoints []
         (set_results
            (results (Sample.loaded [])
             + to_int (Z.of_nat (length Sample.mixed_events)))
            (Sample.loaded []))).
Proof.
  assert (Hrec : exists record : RawEventRecord,
            In record Sample.mixed_events /\ Fields.find "lat" record = None).
  { exists Sample.event_without_coordinates. split; [left|]; reflexivity. }
  split; [reflexivity|]. split; [exact Hrec|]. split; [reflexivity|].
  exact (missing_latitude_aborts_first Sample.stod Sample.mixed_events []
           (Sample.loaded []) invalid_argument eq_refl Hrec eq_refl).
Defined.

Lemma searchHandler_empty_answer_witness :
  in_int (1 * 20) = true /\
  searched Sample.get_events "jazz" 1 (Sample.loaded [[]; []]) = [] /\
  in_int (if 0 <? 1 then 0 else results (Sample.loaded [[]; []])) = true /\
  searchHandler Sample.stod Sample.get_events "jazz" 1
    (Sample.loaded [[]; []])
  = match activePoints (Sample.loaded [[]; []]) with
    | [] => Undefined
    | first :: _ =>
        Done tt
          (mkState (if 0 <? 1 then 0 else results (Sample.loaded [[]; []]))
             (currIndex (Sample.loaded [[]; []]))
             (activePoints (Sample.loaded [[]; []])) [[]]
             (snd (Sample.get_events None
                     (net_after_request Sample.get_events "jazz" 1
                        (Sample.loaded [[]; []]))))
             (trace (Sample.loaded [[]; []])
              ++ [Fetched (search_request "jazz" 1); Fetched None;
                  SetViewpointAnimated first; MapViewChanged]))
    end.
Proof.
  split; [reflexivity|]. split; [reflexivity|]. split; [reflexivity|].
  exact (searchHandler_empty_answer Sample.stod Sample.get_events "jazz" 1
           (Sample.loaded [[]; []]) eq_refl eq_refl eq_refl).
Defined.

(** The first search of a controller without points, answered by nothing. *)
Example first_search_without_results :
  searchHandler Sample.stod Sample.get_events "jazz" 0 (Sample.init [[]; []])
  = Undefined.
Proof. reflexivity. Qed.

Lemma search_then_click_marker_witness :
  in_int (0 * 20) = true /\
  searched Sample.get_events "jazz" 0
    (Sample.loaded [Sample.three_events; Sample.three_events]) <> [] /\
  forallb (parsable Sample.stod)
    (searched Sample.get_events "jazz" 0
       (Sample.loaded [Sample.three_events; Sample.three_events])) = true /\
  exists s' overlay,
    searchHandler Sample.stod Sample.get_events "jazz" 0
      (Sample.loaded [Sample.three_events; Sample.three_events])
    = Done tt s' /\
    graphicsOverlays s' = [overlay] /\
    forall g others i,
      In g overlay -> id g = Some i ->
      identifyCompleted (Some (g :: others)) s'
      = Done tt (log (SetViewpointAnimated (geometry g)) s').
Proof.
  assert (Hne : searched Sample.get_events "jazz" 0
                  (Sample.loaded [Sample.three_events; Sample.three_events])
                <> []) by discriminate.
  split; [reflexivity|]. split; [exact Hne|]. split; [reflexivity|].
  exact (search_then_click_marker Sample.stod Sample.get_events "jazz" 0
           (Sample.loaded [Sample.three_events; Sample.three_events])
           eq_refl Hne eq_refl eq_refl).
Defined.

Lemma search_then_click_label_witness :
  in_int (0 * 20) = true /\
  searched Sample.get_events "jazz" 0
    (Sample.loaded [Sample.three_events; Sample.three_events]) <> [] /\
  forallb (parsable Sample.stod)
    (searched Sample.get_events "jazz" 0
       (Sample.loaded [Sample.three_events; Sample.three_events])) = true /\
  exists s' overlay first,
    searchHandler Sample.stod Sample.get_events "jazz" 0
      (Sample.loaded [Sample.three_events; Sample.three_events])
    = Done tt s' /\
    graphicsOverlays s' = [overlay] /\
    hd_error (activePoints s') = Some first /\
    forall g others,
      In g overlay -> id g = None ->
      In (geometry g) (activePoints s') /\
      identifyCompleted (Some (g :: others)) s'
      = Done tt (log (SetViewpointAnimated first) s').
Proof.
  assert (Hne : searched Sample.get_events "jazz" 0
                  (Sample.loaded [Sample.three_events; Sample.three_events])
                <> []) by discriminate.
  split; [reflexivity|]. split; [exact Hne|]. split; [reflexivity|].
  exact (search_then_click_label Sample.stod Sample.get_events "jazz" 0
           (Sample.loaded [Sample.three_events; Sample.three_events])
           eq_refl Hne eq_refl eq_refl).
Defined.

Lemma switchViews_any_cursor_witness :
  1 <= Z.of_nat (length (activePoints (Sample.stale []))) <= INT_MAX /\
  INT_MIN < currIndex (Sample.stale []) < INT_MAX /\
  exists s' point,
    switchViews false (Sample.stale []) = Done tt s' /\
    0 <= currIndex s' < Z.of_nat (length (activePoints s')) /\
    nth_error (activePoints s') (Z.to_nat (currIndex s')) = Some point /\
    trace s' = trace (Sample.stale [])
               ++ [SetViewpointAnimated point; MapViewChanged] /\
    (Z.of_nat (length (activePoints (Sample.stale []))) - 1
     < currIndex (Sample.stale []) + (if false then 1 else -1) ->
     currIndex s' = 0) /\
    (currIndex (Sample.stale []) + (if false then 1 else -1) < 0 ->
     currIndex s' = Z.of_nat (length (activePoints (Sample.stale []))) - 1) /\
    results s' = results (Sample.stale []) /\
    activePoints s' = activePoints (Sample.stale []) /\
    graphicsOverlays s' = graphicsOverlays (Sample.stale []).
Proof.
  assert (HN : 1 <= Z.of_nat (length (activePoints (Sample.stale [])))
               <= INT_MAX) by (cbn; int_lia).
  assert (Hi : INT_MIN < currIndex (Sample.stale []) < INT_MAX)
    by (cbn; int_lia).
  split; [exact HN|]. split; [exact Hi|].
  exact (switchViews_any_cursor false (Sample.stale []) HN Hi).
Defined.

Lemma presses_closed_form_witness :
  1 <= Z.of_nat (length (activePoints (Sample.loaded []))) <= INT_MAX /\
  0 <= currIndex (Sample.loaded [])
    < Z.of_nat (length (activePoints (Sample.loaded []))) /\
  index_after (presses 5 false (Sample.loaded []))
  = Some ((currIndex (Sample.loaded [])
           + (if false then Z.of_nat 5 else - Z.of_nat 5))
          mod Z.of_nat (length (activePoints (Sample.loaded [])))).
Proof.
  assert (HN : 1 <= Z.of_nat (length (activePoints (Sample.loaded [])))
               <= INT_MAX) by (cbn; int_lia).
  assert (Hi : 0 <= currIndex (Sample.loaded [])
               < Z.of_nat (length (activePoints (Sample.loaded []))))
    by (cbn; lia).
  split; [exact HN|]. split; [exact Hi|].
  exact (presses_closed_form 5 false (Sample.loaded []) HN Hi).
Defined.

Lemma search_then_step_witness :
  in_int (0 * 20) = true /\
  searched Sample.get_events "jazz" 0
    (Sample.stale [Sample.three_events; Sample.three_events]) <> [] /\
  forallb (parsable Sample.stod)
    (searched Sample.get_events "jazz" 0
       (Sample.stale [Sample.three_events; Sample.three_events])) = true /\
  Z.of_nat (length (searched Sample.get_events "jazz" 0
                      (Sample.stale [Sample.three_events;
                                     Sample.three_events]))) <= INT_MAX /\
  INT_MIN < currIndex (Sample.stale [Sample.three_events;
                                     Sample.three_events]) < INT_MAX /\
  exists s'',
    bind (searchHandler Sample.stod Sample.get_events "jazz" 0)
         (fun _ => switchViews true)
         (Sample.stale [Sample.three_events; Sample.three_events])
    = Done tt s'' /\
    0 <= currIndex s'' < Z.of_nat (length (activePoints s'')) /\
    length (activePoints s'')
    = length (aggregate
                (searched Sample.get_events "jazz" 0
                   (Sample.stale [Sample.three_events;
                                  Sample.three_events]))).
Proof.
  assert (Hne : searched Sample.get_events "jazz" 0
                  (Sample.stale [Sample.three_events; Sample.three_events])
                <> []) by discriminate.
  assert (Hlen : Z.of_nat (length (searched Sample.get_events "jazz" 0
                                     (Sample.stale [Sample.three_events;
                                                    Sample.three_events])))
                 <= INT_MAX) by (cbn; int_lia).
  assert (Hi : INT_MIN < currIndex (Sample.stale [Sample.three_events;
                                                  Sample.three_events])
               < INT_MAX) by (cbn; int_lia).
  split; [reflexivity|]. split; [exact Hne|]. split; [reflexivity|].
  split; [exact Hlen|]. split; [exact Hi|].
  exact (search_then_step Sample.stod Sample.get_events "jazz" 0 true
           (Sample.stale [Sample.three_events; Sample.three_events])
           eq_refl Hne eq_refl eq_refl Hlen Hi).
Defined.

(** The step after that search lands on the first point of the new list. *)
Example stale_cursor_after_search :
  index_after
    (bind (searchHandler Sample.stod Sample.get_events "jazz" 0)
          (fun _ => switchViews true)
          (Sample.stale [Sample.three_events; Sample.three_events]))
  = Some 0.
Proof. vm_compute. reflexivity. Qed.

(** * The click handler and the cursor *)

Section ClickFrame.

Context {double : Type} {Net : Type}.

Local Abbreviation State := (State double Net).

(** X15.  A click never moves the cursor.  The handler throws nothing;
    when it returns it has either done nothing (a null result, or one
    without graphics) or panned to one point of the current list, and the
    counter, the cursor, the list and the overlays are as they were. *)
Theorem click_keeps_cursor identifyResult (s : State) :
  match identifyCompleted identifyResult s with
  | Done _ s' =>
      currIndex s' = currIndex s /\
      results s' = results s /\
      activePoints s' = activePoints s /\
      graphicsOverlays s' = graphicsOverlays s /\
      (s' = s \/
       exists point,
         In point (activePoints s) /\
         trace s' = trace s ++ [SetViewpointAnimated point])
  | Throws _ _ => False
  | Undefined =>
      exists clickedGraphic others,
        identifyResult = Some (clickedGraphic :: others) /\
        ~ (0 <= property_id clickedGraphic
           < Z.of_nat (length (activePoints s)))
  end.
Proof.
  destruct identifyResult as [[|clickedGraphic others]|];
    cbn [identifyCompleted]; unfold ret; try (repeat split; left; reflexivity).
  unfold bind, read, vector_at.
  destruct (Z.leb_spec 0 (property_id clickedGraphic)) as [Hlo|Hlo];
    destruct (Z.ltb_spec (property_id clickedGraphic)
                (Z.of_nat (length (activePoints s)))) as [Hhi|Hhi];
    cbn [andb];
    try (exists clickedGraphic, others; split; [reflexivity | lia]).
  destruct (nth_error (activePoints s)
              (Z.to_nat (property_id clickedGraphic))) as [point|] eqn:Hnth.
  - cbn. repeat split. right. exists point.
    split; [apply (nth_error_In _ _ Hnth) | reflexivity].
  - apply nth_error_None in Hnth. lia.
Qed.

End ClickFrame.
